(** * DNS Analyzer: the core of [dns_analyzer/core.py]

    A shallow embedding of [DNSAnalyzer] (construction and [run]), of the
    helpers [_severity_rank], [_check_best_practices], [_query_and_collect]
    and [_err], and the properties of the specification that were checked
    against them.

    Conventions.
    - A Python [str] is a [string].  The texts the analyzer inspects are the
      [to_text()] renderings of DNS answers, which are 7-bit; [lower],
      [upper], [isdigit] and the white-space class below are Python's on that
      range and leave every other character alone.
    - A [Dict[str, str]] result row with its six fixed keys is the record
      [row]; severities stay strings, as in the source.
    - The resolver, [ipaddress] and the sorting routine behind
      [DataFrame.sort_values] are libraries, not code of the package: they
      are the variables of the section [Analyzer].  Taken as given in the
      same way are the creation of the resolver in [__init__], and
      [str.strip] on the text typed into the window, which is not confined
      to the 7-bit range. *)

From Stdlib Require Import List String Ascii Bool Arith ZArith Lia.
From Stdlib Require Import Permutation Sorted DecimalString.
Import ListNotations.
Open Scope string_scope.
Open Scope list_scope.

(** ** Python string operations *)

Module Str.

Definition code (c : ascii) : nat := nat_of_ascii c.

(** [c.lower()] and [c.upper()] on one character. *)
Definition lower_char (c : ascii) : ascii :=
  if ((65 <=? code c) && (code c <=? 90))%nat then ascii_of_nat (code c + 32) else c.

Definition upper_char (c : ascii) : ascii :=
  if ((97 <=? code c) && (code c <=? 122))%nat then ascii_of_nat (code c - 32) else c.

Fixpoint lower (s : string) : string :=
  match s with
  | EmptyString => EmptyString
  | String c t => String (lower_char c) (lower t)
  end.

Fixpoint upper (s : string) : string :=
  match s with
  | EmptyString => EmptyString
  | String c t => String (upper_char c) (upper t)
  end.

(** [c.isspace()]: TAB..CR, FS..US and the blank. *)
Definition is_space (c : ascii) : bool :=
  (((9 <=? code c) && (code c <=? 13)) || ((28 <=? code c) && (code c <=? 32)))%nat.

Definition is_digit (c : ascii) : bool :=
  ((48 <=? code c) && (code c <=? 57))%nat.

(** [needle in hay]. *)
Fixpoint contains (needle hay : string) : bool :=
  prefix needle hay ||
  match hay with
  | EmptyString => false
  | String _ t => contains needle t
  end.

(** [hay.count(needle)] for a non-empty [needle]: occurrences are counted
    from the left and do not overlap; [skip] is the number of characters
    of the occurrence just counted that are still to be passed. *)
Fixpoint count_from (needle hay : string) (skip : nat) : nat :=
  match hay with
  | EmptyString => 0
  | String _ t =>
      match skip with
      | S k => count_from needle t k
      | O => if prefix needle hay
             then S (count_from needle t (length needle - 1))
             else count_from needle t 0
      end
  end.

Definition count (needle hay : string) : nat := count_from needle hay 0.

(** [s.split(sep)] for a non-empty [sep]; [cur] is the piece being read. *)
Fixpoint split_from (sep s : string) (skip : nat) (cur : string) : list string :=
  match s with
  | EmptyString => [cur]
  | String c t =>
      match skip with
      | S k => split_from sep t k cur
      | O => if prefix sep s
             then cur :: split_from sep t (length sep - 1) EmptyString
             else split_from sep t 0 (cur ++ String c EmptyString)
      end
  end.

Definition split (sep s : string) : list string := split_from sep s 0 EmptyString.

(** [pieces[0]] and [pieces[-1]] of a list that [split] returned. *)
Definition first (pieces : list string) : string := hd EmptyString pieces.
Definition final (pieces : list string) : string := List.last pieces EmptyString.

(** [s.split()]: the maximal runs of characters that are not white space. *)
Fixpoint words_from (s : string) (cur : string) : list string :=
  match s with
  | EmptyString => match cur with EmptyString => [] | _ => [cur] end
  | String c t =>
      if is_space c
      then match cur with
           | EmptyString => words_from t EmptyString
           | _ => cur :: words_from t EmptyString
           end
      else words_from t (cur ++ String c EmptyString)
  end.

Definition words (s : string) : list string := words_from s EmptyString.

Fixpoint lstrip (s : string) : string :=
  match s with
  | EmptyString => EmptyString
  | String c t => if is_space c then lstrip t else s
  end.

(** Dropping trailing white space: a character is kept when it is not
    white space or when something is kept after it. *)
Fixpoint rstrip (s : string) : string :=
  match s with
  | EmptyString => EmptyString
  | String c t =>
      match rstrip t with
      | EmptyString => if is_space c then EmptyString else String c EmptyString
      | r => String c r
      end
  end.

Definition strip (s : string) : string := rstrip (lstrip s).

(** [s.isdigit()]: not empty and digits only. *)
Fixpoint all_digits (s : string) : bool :=
  match s with
  | EmptyString => true
  | String c t => is_digit c && all_digits t
  end.

Definition isdigit (s : string) : bool :=
  match s with
  | EmptyString => false
  | _ => all_digits s
  end.

(** [int(s)] on a string of digits (Python integers are unbounded). *)
Fixpoint int_from (s : string) (acc : Z) : Z :=
  match s with
  | EmptyString => acc
  | String c t => int_from t (10 * acc + Z.of_nat (code c - 48))%Z
  end.

Definition int (s : string) : Z := int_from s 0%Z.

(** [sep.join(items)]. *)
Definition join (sep : string) (items : list string) : string := concat sep items.

(** [str(n)] for a count. *)
Definition of_nat (n : nat) : string := NilEmpty.string_of_uint (Nat.to_uint n).

End Str.

(** ** Result rows and severities *)

(** One element of [out]: the dictionary with the keys [Domain],
    [RecordType], [Selector], [Value], [Issues] and [Severity]. *)
Record row : Type := mk_row {
  Domain : string;
  RecordType : string;
  Selector : string;
  Value : string;
  Issues : string;
  Severity : string
}.

(** [{"CRITICAL": 4, "WARN": 3, "INFO": 2, "OK": 1, "": 0}.get(level, 0)] *)
Definition _severity_rank (level : string) : Z :=
  if level =? "CRITICAL" then 4
  else if level =? "WARN" then 3
  else if level =? "INFO" then 2
  else if level =? "OK" then 1
  else 0.

(** [max(severity, level, key=_severity_rank)]: Python's [max] returns the
    first of the arguments whose key is maximal. *)
Definition max_severity (severity level : string) : string :=
  if (_severity_rank severity <? _severity_rank level)%Z then level else severity.

Definition _err (domain logical_type msg : string) : row :=
  {| Domain := domain;
     RecordType := logical_type;
     Selector := "";
     Value := msg;
     Issues := msg;
     Severity := "CRITICAL" |}.

(** ** The analyzer object *)

Definition DEFAULT_RECORD_TYPES : list string :=
  ["A"; "AAAA"; "MX"; "NS"; "CNAME"; "TXT"; "SPF"; "DMARC"; "DKIM"; "BIMI"; "SOA"; "CAA"].

(** The attributes of a [DNSAnalyzer] that [run] reads.  The resolver handle
    is the section variable [resolve] below; [results] is what [run]
    returns. *)
Record DNSAnalyzer : Type := mk_analyzer {
  domains : list string;
  dkim_selectors : list string;
  enable_best_practices : bool
}.

(** What a call either returns or raises: the [ValueError] of the package, or
    an exception of a library with its message. *)
Inductive outcome (A : Type) : Type :=
| Returned (a : A)
| RaisedValueError (msg : string)
| Raised (msg : string).
Arguments Returned {A} a.
Arguments RaisedValueError {A} msg.
Arguments Raised {A} msg.

(** What [dns.resolver.Resolver()] does on the host: it returns a resolver
    configured from the system, or it raises, as it does when the host has
    no usable resolver configuration. *)
Inductive creation : Type :=
| Created
| NotCreated (msg : string).

(** [DNSAnalyzer.__init__]: [not domains] holds of the empty list;
    [dkim_selectors or []]; the resolver is created after the attributes
    are set, [resolver] telling how that goes. *)
Definition __init__ (resolver : creation) (domains : list string)
    (dkim_selectors : option (list string)) (enable_best_practices : bool)
    : outcome DNSAnalyzer :=
  match domains with
  | [] => RaisedValueError "La lista domini non può essere vuota."
  | _ :: _ =>
      match resolver with
      | NotCreated msg => Raised msg
      | Created =>
          Returned {| domains := domains;
                      dkim_selectors := match dkim_selectors with
                                        | Some l => l
                                        | None => []
                                        end;
                      enable_best_practices := enable_best_practices |}
      end
  end.

(** ** The best-practice rules *)

(** The running pair of [severity] and [issues] of [_check_best_practices]. *)
Definition verdict : Type := (string * list string)%type.

(** [severity = level; issues.append(msg)] *)
Definition set_to (level msg : string) (v : verdict) : verdict :=
  (level, snd v ++ [msg]).

(** [severity = max(severity, level, key=_severity_rank); issues.append(msg)] *)
Definition raise_to (level msg : string) (v : verdict) : verdict :=
  (max_severity (fst v) level, snd v ++ [msg]).

Definition when (b : bool) (f : verdict -> verdict) (v : verdict) : verdict :=
  if b then f v else v.

Definition check_spf (values : list string) (combined : string) (v : verdict) : verdict :=
  let includes := Str.count "include:" combined in
  let v := when (10 <? includes)%nat
             (set_to "WARN"
                ("SPF con " ++ Str.of_nat includes ++ " include (possibili troppe query)")) v in
  let v := when (Str.contains "all" combined
                 && negb (existsb (fun s => Str.contains s combined) ["-all"; "~all"; "?all"]))
             (raise_to "WARN" "SPF senza suffisso -all/~all/?all") v in
  let v := when (Str.contains "include:*" combined)
             (set_to "CRITICAL" "SPF usa include:* (wildcard)") v in
  fold_left (fun v val =>
               when (255 <? length val)%nat
                 (raise_to "WARN" "Record SPF molto lungo (>255 caratteri)") v)
            values v.

Definition check_dmarc (values : list string) (combined : string) (v : verdict) : verdict :=
  let v := when (negb (Str.contains "v=dmarc1" combined))
             (set_to "CRITICAL" "DMARC non valido (manca v=DMARC1)") v in
  let v := when (Str.contains "p=none" combined)
             (raise_to "WARN" "DMARC policy=none (protezione debole)") v in
  let v := when (negb (existsb (fun k => Str.contains k combined) ["rua="; "ruf="]))
             (raise_to "INFO" "Nessun indirizzo di report (rua/ruf)") v in
  when (1 <? List.length values)%nat
    (raise_to "CRITICAL" "DMARC duplicato (più record)") v.

(** [val.split("p=")[-1].split(";")[0].strip()] *)
Definition key_part (val : string) : string :=
  Str.strip (Str.first (Str.split ";" (Str.final (Str.split "p=" val)))).

(** The body of the loop over [values] in the DKIM branch. *)
Definition dkim_key_step (v : verdict) (val : string) : verdict :=
  if Str.contains "p=" val then
    if (length (key_part val) <? 160)%nat then
      set_to "CRITICAL" "Chiave DKIM molto corta (<1024 bit?)" v
    else if (length (key_part val) <? 300)%nat then
      raise_to "WARN" "Chiave DKIM <2048 bit" v
    else v
  else v.

Definition check_dkim (values : list string) (combined : string) (v : verdict) : verdict :=
  let v := when (negb (Str.contains "p=" combined))
             (set_to "CRITICAL" "DKIM non valido (manca p=)") v in
  let v := when (negb (Str.contains "k=rsa" combined))
             (raise_to "WARN" "Record DKIM senza k=rsa") v in
  let v := fold_left dkim_key_step values v in
  when (1 <? List.length values)%nat
    (raise_to "WARN" "Selettore DKIM duplicato") v.

Definition check_bimi (values : list string) (combined : string) (v : verdict) : verdict :=
  let v := when (negb (Str.contains "v=bimi1" combined))
             (set_to "CRITICAL" "BIMI non valido (manca v=BIMI1)") v in
  let v := when (negb (Str.contains "l=" combined))
             (raise_to "WARN" "Campo l= mancante (logo SVG)") v in
  let v := when (negb (Str.contains "a=" combined))
             (raise_to "WARN" "Campo a= mancante (VMC/certificato)") v in
  when (1 <? List.length values)%nat
    (raise_to "WARN" "Record BIMI duplicato") v.

(** [[int(v.split()[0]) for v in values if v.split() and v.split()[0].isdigit()]] *)
Definition mx_priorities (values : list string) : list Z :=
  flat_map (fun v => match Str.words v with
                     | tok :: _ => if Str.isdigit tok then [Str.int tok] else []
                     | [] => []
                     end) values.

(** [len(set(prio))] *)
Definition distinct (prio : list Z) : nat := List.length (nodup Z.eq_dec prio).

Definition check_mx (values : list string) (v : verdict) : verdict :=
  match values with
  | [] => set_to "CRITICAL" "Nessun record MX trovato" v
  | _ :: _ =>
      let prio := mx_priorities values in
      when ((distinct prio =? 1)%nat && (1 <? List.length prio)%nat)
        (raise_to "WARN" "Tutti i record MX hanno la stessa priorità") v
  end.

Definition check_ns (values : list string) (v : verdict) : verdict :=
  when (List.length values <? 2)%nat
    (raise_to "WARN" "Solo un nameserver configurato") v.

Section Analyzer.

(** [ipaddress.ip_address(addr).is_private], [None] when [ip_address]
    raises [ValueError]. *)
Variable ip_is_private : string -> option bool.

Definition check_addr (values : list string) (v : verdict) : verdict :=
  fold_left (fun v addr =>
               match ip_is_private addr with
               | Some true => raise_to "WARN" ("Indirizzo " ++ addr ++ " privato") v
               | Some false => v
               | None => v
               end)
            values v.

Definition _check_best_practices (record_type : string) (values : list string)
    : string * string :=
  let v : verdict := ("OK", []) in
  let combined := Str.lower (Str.join " | " values) in
  let v :=
    if record_type =? "SPF" then check_spf values combined v
    else if record_type =? "DMARC" then check_dmarc values combined v
    else if record_type =? "DKIM" then check_dkim values combined v
    else if record_type =? "BIMI" then check_bimi values combined v
    else if record_type =? "MX" then check_mx values v
    else if (record_type =? "A") || (record_type =? "AAAA") then check_addr values v
    else if record_type =? "NS" then check_ns values v
    else v in
  (fst v, Str.join "; " (snd v)).

(** *** Queries *)

(** What [analyzer.resolver.resolve(query_domain, rtype)] followed by
    [[r.to_text() for r in answer]] yields: the texts of the answer, or an
    exception with its message [str(exc)]. *)
Inductive resolution : Type :=
| Answer (records : list string)
| Failure (message : string).

(** The resolver is a service with a state of its own (the network, its
    cache): a lookup is a step from one state to the next. *)
Variable resolver_state : Type.
Variable resolve : resolver_state -> string -> string -> resolver_state * resolution.

(** The validity filters of [_query_and_collect]. *)
Definition spf_valid (rec : string) : bool := Str.contains "v=spf1" (Str.lower rec).
Definition dmarc_valid (rec : string) : bool := Str.contains "v=DMARC1" rec.
Definition bimi_valid (rec : string) : bool :=
  Str.contains "v=BIMI1" (Str.upper rec) || Str.contains "v=bimi1" (Str.lower rec).

Definition filter_records (logical_type : string) (records : list string) : list string :=
  if logical_type =? "SPF" then filter spf_valid records
  else if logical_type =? "DMARC" then filter dmarc_valid records
  else if logical_type =? "BIMI" then filter bimi_valid records
  else records.

(** [logical_type in {"SPF", "DMARC", "BIMI"}] *)
Definition needs_valid_record (logical_type : string) : bool :=
  (logical_type =? "SPF") || (logical_type =? "DMARC") || (logical_type =? "BIMI").

Definition is_nil {A : Type} (l : list A) : bool :=
  match l with [] => true | _ :: _ => false end.

(** [selector or ""] *)
Definition selector_text (selector : option string) : string :=
  match selector with Some s => s | None => "" end.

(** The row that the [try] block of [_query_and_collect] appends once the
    lookup has returned [records]. *)
Definition answer_row (analyzer : DNSAnalyzer) (domain logical_type : string)
    (selector : option string) (records : list string) : row :=
  let records := filter_records logical_type records in
  let '(sev, details) :=
    if enable_best_practices analyzer
    then _check_best_practices logical_type records
    else ("", "") in
  let '(sev, details, records) :=
    if needs_valid_record logical_type && is_nil records
    then (if enable_best_practices analyzer then "CRITICAL" else "",
          ("Nessun record " ++ logical_type ++ " valido")%string,
          [("Nessun record " ++ logical_type ++ " valido")%string])
    else (sev, details, records) in
  {| Domain := domain;
     RecordType := logical_type;
     Selector := selector_text selector;
     Value := Str.join "|" records;
     Issues := if (sev =? "") || (sev =? "OK") then "" else details;
     Severity := sev |}.

(** The row of the [except Exception] block. *)
Definition failure_row (analyzer : DNSAnalyzer) (domain logical_type : string)
    (selector : option string) (message : string) : row :=
  {| Domain := domain;
     RecordType := logical_type;
     Selector := selector_text selector;
     Value := message;
     Issues := "Errore di lookup";
     Severity := if enable_best_practices analyzer then "CRITICAL" else "" |}.

(** The state that the loops of [run] thread: the resolver and the list
    [out], which is only ever appended to. *)
Definition world : Type := (resolver_state * list row)%type.

Definition _query_and_collect (analyzer : DNSAnalyzer)
    (domain query_domain rtype logical_type : string) (selector : option string)
    (w : world) : world :=
  let '(s, out) := w in
  let '(s', res) := resolve s query_domain rtype in
  match res with
  | Answer records =>
      (s', out ++ [answer_row analyzer domain logical_type selector records])
  | Failure message =>
      (s', out ++ [failure_row analyzer domain logical_type selector message])
  end.

(** *** [run] *)

(** [bool(selected_record_types)]: [None] and the empty list are false. *)
Definition chosen (selected_record_types : option (list string)) : bool :=
  match selected_record_types with
  | Some (_ :: _) => true
  | Some [] => false
  | None => false
  end.

(** The first two statements of [run]. *)
Definition record_types_of (analyzer : DNSAnalyzer)
    (selected_record_types : option (list string)) : list string :=
  let record_types :=
    match selected_record_types with
    | Some (t :: ts) => t :: ts
    | Some [] => DEFAULT_RECORD_TYPES
    | None => DEFAULT_RECORD_TYPES
    end in
  if enable_best_practices analyzer && negb (chosen selected_record_types)
  then ["SPF"; "DMARC"; "DKIM"; "BIMI"; "MX"; "A"; "AAAA"; "NS"]
  else record_types.

(** The body of [for rtype in record_types]. *)
Definition run_rtype (analyzer : DNSAnalyzer) (domain : string) (w : world)
    (rtype : string) : world :=
  if rtype =? "DKIM" then
    match dkim_selectors analyzer with
    | [] => (fst w, snd w ++ [_err domain "DKIM" "Nessun selettore DKIM fornito"])
    | _ :: _ =>
        fold_left (fun w selector =>
                     _query_and_collect analyzer domain
                       (selector ++ "._domainkey." ++ domain) "TXT" "DKIM"
                       (Some selector) w)
                  (dkim_selectors analyzer) w
    end
  else if rtype =? "DMARC" then
    _query_and_collect analyzer domain ("_dmarc." ++ domain) "TXT" "DMARC" None w
  else if rtype =? "SPF" then
    _query_and_collect analyzer domain domain "TXT" "SPF" None w
  else if rtype =? "BIMI" then
    _query_and_collect analyzer domain ("default._bimi." ++ domain) "TXT" "BIMI" None w
  else
    _query_and_collect analyzer domain domain rtype rtype None w.

(** The body of [for domain in self.domains]. *)
Definition run_domain (analyzer : DNSAnalyzer) (record_types : list string)
    (w : world) (domain : string) : world :=
  fold_left (run_rtype analyzer domain) record_types w.

(** The two nested loops: [out] as it stands when they end. *)
Definition collect (analyzer : DNSAnalyzer) (selected_record_types : option (list string))
    (s : resolver_state) : world :=
  fold_left (run_domain analyzer (record_types_of analyzer selected_record_types))
            (domains analyzer) (s, []).

(** *** Sorting the frame *)

(** [numpy.argsort] of the kind that [sort_values] asks for by default,
    ["quicksort"]: from the keys to the positions that put them in
    ascending order. *)
Variable argsort : list Z -> list nat.

(** [pandas.core.sorting.nargsort] on keys without missing values: for a
    descending order the keys are reversed, sorted, and the positions
    mapped back and reversed. *)
Definition nargsort (items : list Z) (ascending : bool) : list nat :=
  if ascending then argsort items
  else
    let idx := rev (seq 0 (List.length items)) in
    rev (map (fun j => nth j idx 0%nat) (argsort (rev items))).

(** [df.take(indexer)]: the rows at the given positions, in that order. *)
Definition take (rows : list row) (indexer : list nat) : list row :=
  flat_map (fun i => match nth_error rows i with
                     | Some r => [r]
                     | None => []
                     end) indexer.

(** [df.sort_values(by="Severity", key=lambda s: s.map(_severity_rank),
    ascending=False, inplace=True)] *)
Definition sort_values (rows : list row) : list row :=
  take rows (nargsort (map (fun r => _severity_rank (Severity r)) rows) false).

(** [run]: the frame is sorted unless it is empty; the result is also what
    [self.results] holds afterwards. *)
Definition run (analyzer : DNSAnalyzer) (selected_record_types : option (list string))
    (s : resolver_state) : resolver_state * list row :=
  let '(s', out) := collect analyzer selected_record_types s in
  match out with
  | [] => (s', [])
  | _ :: _ => (s', sort_values out)
  end.

End Analyzer.


(** ** The dispatch plan

    The loops of [run] read off as data: per domain and requested type, the
    lookups to perform, or the marker row of a DKIM request without
    selectors. *)

Inductive dispatch : Type :=
| Marker (domain : string)
| Lookup (domain query_domain rtype logical_type : string) (selector : option string).

Definition dispatch_rtype (analyzer : DNSAnalyzer) (domain rtype : string) : list dispatch :=
  if rtype =? "DKIM" then
    match dkim_selectors analyzer with
    | [] => [Marker domain]
    | _ :: _ =>
        map (fun selector =>
               Lookup domain (selector ++ "._domainkey." ++ domain) "TXT" "DKIM" (Some selector))
            (dkim_selectors analyzer)
    end
  else if rtype =? "DMARC" then [Lookup domain ("_dmarc." ++ domain) "TXT" "DMARC" None]
  else if rtype =? "SPF" then [Lookup domain domain "TXT" "SPF" None]
  else if rtype =? "BIMI" then [Lookup domain ("default._bimi." ++ domain) "TXT" "BIMI" None]
  else [Lookup domain domain rtype rtype None].

Definition plan (analyzer : DNSAnalyzer) (record_types : list string) : list dispatch :=
  flat_map (fun domain => flat_map (dispatch_rtype analyzer domain) record_types)
           (domains analyzer).

Section Dispatch.

Variable ip_is_private : string -> option bool.
Variable resolver_state : Type.
Variable resolve : resolver_state -> string -> string -> resolver_state * resolution.

(** Performing one entry of the plan. *)
Definition perform (analyzer : DNSAnalyzer) (w : world resolver_state) (d : dispatch)
    : world resolver_state :=
  match d with
  | Marker domain => (fst w, snd w ++ [_err domain "DKIM" "Nessun selettore DKIM fornito"])
  | Lookup domain query_domain rtype logical_type selector =>
      _query_and_collect ip_is_private resolver_state resolve analyzer
        domain query_domain rtype logical_type selector w
  end.

(** The row that an entry of the plan leaves in [out]. *)
Definition made (analyzer : DNSAnalyzer) (r : row) (d : dispatch) : Prop :=
  match d with
  | Marker domain => r = _err domain "DKIM" "Nessun selettore DKIM fornito"
  | Lookup domain _ _ logical_type selector =>
      (exists answers, r = answer_row ip_is_private analyzer domain logical_type selector answers)
      \/ (exists message, r = failure_row analyzer domain logical_type selector message)
  end.

End Dispatch.

(** The columns that identify a row, and the identity of the row that a
    dispatch entry stands for. *)
Definition row_key (r : row) : string * string * string :=
  (Domain r, RecordType r, Selector r).

Definition dispatch_key (d : dispatch) : string * string * string :=
  match d with
  | Marker domain => (domain, "DKIM", "")
  | Lookup domain _ _ logical_type selector => (domain, logical_type, selector_text selector)
  end.

(** The rows the specification announces for one domain and one requested
    type: one per selector for DKIM (one marker when there is none), one
    otherwise. *)
Definition expected_keys (analyzer : DNSAnalyzer) (domain rtype : string)
    : list (string * string * string) :=
  if rtype =? "DKIM" then
    match dkim_selectors analyzer with
    | [] => [(domain, "DKIM", "")]
    | _ :: _ => map (fun selector => (domain, "DKIM", selector)) (dkim_selectors analyzer)
    end
  else [(domain, rtype, "")].

(** ** Sorting: the contract of [argsort] and the stable sort *)

Definition key_at (keys : list Z) (i : nat) : Z := nth i keys 0%Z.

Fixpoint distinct_positions (idx : list nat) : bool :=
  match idx with
  | [] => true
  | i :: t => negb (existsb (Nat.eqb i) t) && distinct_positions t
  end.

(** [idx] lists each position of [0 .. n-1] once. *)
Definition positions_of (n : nat) (idx : list nat) : bool :=
  (List.length idx =? n)%nat && forallb (fun i => (i <? n)%nat) idx && distinct_positions idx.

Fixpoint adjacent (ok : nat -> nat -> bool) (idx : list nat) : bool :=
  match idx with
  | i :: (j :: _) as t => ok i j && adjacent ok t
  | _ => true
  end.

(** What every kind of [argsort] promises: a rearrangement of the positions
    along which the keys ascend. *)
Definition argsort_ok (keys : list Z) (idx : list nat) : bool :=
  positions_of (List.length keys) idx
  && adjacent (fun i j => (key_at keys i <=? key_at keys j)%Z) idx.

(** What the kinds ["stable"] and ["mergesort"] promise on top: positions
    with equal keys stay in their order. *)
Definition argsort_stable (keys : list Z) (idx : list nat) : bool :=
  positions_of (List.length keys) idx
  && adjacent (fun i j => (key_at keys i <? key_at keys j)%Z
                          || ((key_at keys i =? key_at keys j)%Z && (i <? j)%nat)) idx.

(** The two orders on positions: by key, and by key then position. *)
Definition by_key (keys : list Z) (i j : nat) : Prop :=
  (key_at keys i <= key_at keys j)%Z.

Definition by_key_then_position (keys : list Z) (i j : nat) : Prop :=
  (key_at keys i < key_at keys j)%Z \/ (key_at keys i = key_at keys j /\ i < j).

(** Their mirror images, for the largest key first. *)
Definition by_key_desc (keys : list Z) (i j : nat) : Prop :=
  (key_at keys j <= key_at keys i)%Z.

Definition by_key_desc_then_position (keys : list Z) (i j : nat) : Prop :=
  (key_at keys j < key_at keys i)%Z \/ (key_at keys i = key_at keys j /\ i < j).

(** The stable sort by a key, largest first, as the specification words it:
    an element goes in front of the first element whose key is not larger,
    when the elements are taken from the last to the first. *)
Section StableSort.

Context {A : Type} (key : A -> Z).

Fixpoint insert_desc (x : A) (l : list A) : list A :=
  match l with
  | [] => [x]
  | y :: t => if (key y <=? key x)%Z then x :: y :: t else y :: insert_desc x t
  end.

Fixpoint stable_sort_desc (l : list A) : list A :=
  match l with
  | [] => []
  | x :: t => insert_desc x (stable_sort_desc t)
  end.

End StableSort.

Definition rank_of (r : row) : Z := _severity_rank (Severity r).

(** Severity ranks never increase along [rows]. *)
Definition ranks_descend (rows : list row) : Prop :=
  StronglySorted (fun r1 r2 => (rank_of r2 <= rank_of r1)%Z) rows.

(** ** Sample collaborators *)

(** Two sorting routines that honour [argsort_ok]: insertion of the
    positions from the last to the first, a position going in front of
    ([strict = false]) or behind ([strict = true]) the positions with an
    equal key. *)
Fixpoint insert_position (strict : bool) (keys : list Z) (i : nat) (l : list nat) : list nat :=
  match l with
  | [] => [i]
  | j :: t =>
      if (if strict then key_at keys i <? key_at keys j else key_at keys i <=? key_at keys j)%Z
      then i :: j :: t
      else j :: insert_position strict keys i t
  end.

Definition insertion_argsort (strict : bool) (keys : list Z) : list nat :=
  fold_right (insert_position strict keys) [] (seq 0 (List.length keys)).

Definition argsort_keeping_ties : list Z -> list nat := insertion_argsort false.

(** The sorting routine seen from one call: it returns [answer]. *)
Definition answering (answer : list nat) : list Z -> list nat := fun _ => answer.

(** A resolver without state that answers from a table. *)
Definition table_resolver (table : string -> string -> resolution)
    (s : unit) (query_domain rtype : string) : unit * resolution :=
  (s, table query_domain rtype).

Definition no_address : string -> option bool := fun _ => None.

Definition no_records : string -> string -> resolution := fun _ _ => Answer [].
Definition unreachable : string -> string -> resolution := fun _ _ => Failure "timeout".

(** A resolver with a state: the number of lookups so far; the second
    lookup fails, the others return one record. *)
Definition flaky_resolver (s : nat) (query_domain rtype : string) : nat * resolution :=
  (S s, if (s =? 1)%nat then Failure "The DNS operation timed out."
        else Answer ["v=spf1 -all"]).

(** A text repeated, for sample values. *)
Fixpoint repeat_text (s : string) (n : nat) : string :=
  match n with
  | O => EmptyString
  | S k => s ++ repeat_text s k
  end.

Definition two_domains : DNSAnalyzer := mk_analyzer ["a.com"; "b.com"] ["s1"] true.
Definition two_quiet_domains : DNSAnalyzer := mk_analyzer ["a.com"; "b.com"] [] false.
Definition one_quiet_domain : DNSAnalyzer := mk_analyzer ["example.com"] [] false.

Definition long_key : string := "v=DKIM1; k=rsa; p=" ++ repeat_text "A" 216.

(** The key text of a DKIM value as the specification words it: what
    stands between the first ["p="] and the next [";"], or the end. *)
Fixpoint after_first (sep s : string) : string :=
  match s with
  | EmptyString => EmptyString
  | String _ t =>
      if prefix sep s then substring (length sep) (length s - length sep) s
      else after_first sep t
  end.

Definition key_text_in_words (val : string) : string :=
  Str.first (Str.split ";" (after_first "p=" val)).

(** ** What the rules keep true of a verdict *)

(** The levels that a rule can give to a finding. *)
Definition is_finding_level (level : string) : bool :=
  (level =? "INFO") || (level =? "WARN") || (level =? "CRITICAL").

(** A verdict is either the initial one, or carries a finding level and
    findings, none of them empty. *)
Definition consistent (v : verdict) : Prop :=
  v = ("OK", [])
  \/ (is_finding_level (fst v) = true
      /\ snd v <> []
      /\ Forall (fun msg => msg <> "") (snd v)).

(** The two ranges of key length that the DKIM loop reports. *)
Definition short_key (val : string) : bool :=
  Str.contains "p=" val && (length (key_part val) <? 160)%nat.

Definition medium_key (val : string) : bool :=
  Str.contains "p=" val && negb (length (key_part val) <? 160)%nat
  && (length (key_part val) <? 300)%nat.

(** ** The window ([dns_analyzer/gui.py]) and the command line ([main.py]) *)

(** [x in items] *)
Definition mem (x : string) (items : list string) : bool := existsb (String.eqb x) items.

(** The line feed that ends each line of the results. *)
Definition nl : string := String (ascii_of_nat 10) EmptyString.

Module Gui.

(** The attributes of a [DNSAnalyzerGUI] and the contents of its widgets
    that the handlers read and write: the two entries, the rows of the two
    tree views, the variable of each check box, and the text of the
    results. *)
Record window : Type := mk_window {
  domains : list string;
  dkim_selectors : list string;
  selected_record_types : string -> bool;
  enable_best_practices : bool;
  analysis_results : option (list row);
  domain_entry : string;
  domain_list : list string;
  dkim_entry : string;
  dkim_list : list string;
  results_text : string
}.

(** [self.domains.append(dom); self.domain_list.insert("", "end", values=(dom,))] *)
Definition append_domain (dom : string) (w : window) : window :=
  mk_window (domains w ++ [dom]) (dkim_selectors w) (selected_record_types w)
    (enable_best_practices w) (analysis_results w) (domain_entry w)
    (domain_list w ++ [dom]) (dkim_entry w) (dkim_list w) (results_text w).

(** [self.dkim_selectors.append(sel); self.dkim_list.insert("", "end", values=(sel,))] *)
Definition append_selector (sel : string) (w : window) : window :=
  mk_window (domains w) (dkim_selectors w ++ [sel]) (selected_record_types w)
    (enable_best_practices w) (analysis_results w) (domain_entry w)
    (domain_list w) (dkim_entry w) (dkim_list w ++ [sel]) (results_text w).

(** [self.domain_entry.delete(0, tk.END)] and the same for the other entry. *)
Definition clear_domain_entry (w : window) : window :=
  mk_window (domains w) (dkim_selectors w) (selected_record_types w)
    (enable_best_practices w) (analysis_results w) ""
    (domain_list w) (dkim_entry w) (dkim_list w) (results_text w).

Definition clear_dkim_entry (w : window) : window :=
  mk_window (domains w) (dkim_selectors w) (selected_record_types w)
    (enable_best_practices w) (analysis_results w) (domain_entry w)
    (domain_list w) "" (dkim_list w) (results_text w).

(** The results pane is emptied and then holds [text]; [results] is what
    [self.analysis_results] becomes. *)
Definition display (text : string) (results : option (list row)) (w : window) : window :=
  mk_window (domains w) (dkim_selectors w) (selected_record_types w)
    (enable_best_practices w) results (domain_entry w)
    (domain_list w) (dkim_entry w) (dkim_list w) text.

Section Lists.

(** [str.strip()] on what the user typed or imported.  Such text is not
    confined to the 7-bit range, and Python strips every Unicode white
    space: the function is taken as it is, and [Str.strip] agrees with it
    on 7-bit text. *)
Variable strip : string -> string.

(** [_add_domain]; the flag tells whether the warning was shown. *)
Definition _add_domain (w : window) : window * bool :=
  let dom := strip (domain_entry w) in
  if (dom =? "") || mem dom (domains w) then (w, true)
  else (clear_domain_entry (append_domain dom w), false).

(** The loop of [_import_domains] over the lines of the file. *)
Definition import_domain_line (w : window) (line : string) : window :=
  let dom := strip line in
  if negb (dom =? "") && negb (mem dom (domains w)) then append_domain dom w else w.

(** [_import_domains]; [file] is [None] when the dialog returns no path, and
    the lines of the chosen file otherwise. *)
Definition _import_domains (file : option (list string)) (w : window) : window :=
  match file with
  | None => w
  | Some lines => fold_left import_domain_line lines w
  end.

Definition _add_dkim (w : window) : window * bool :=
  let sel := strip (dkim_entry w) in
  if (sel =? "") || mem sel (dkim_selectors w) then (w, true)
  else (clear_dkim_entry (append_selector sel w), false).

Definition import_dkim_line (w : window) (line : string) : window :=
  let selector := strip line in
  if negb (selector =? "") && negb (mem selector (dkim_selectors w))
  then append_selector selector w else w.

Definition _import_dkim (file : option (list string)) (w : window) : window :=
  match file with
  | None => w
  | Some lines => fold_left import_dkim_line lines w
  end.

End Lists.

(** What the loop over [df.iterrows()] writes for one row. *)
Definition row_text (r : row) : string :=
  let selector_part :=
    if Selector r =? "" then "" else (" (" ++ Selector r ++ ")")%string in
  ("[" ++ Domain r ++ "] " ++ RecordType r ++ selector_part ++ ": " ++ Value r ++ nl
   ++ (if negb (Severity r =? "") && negb (Severity r =? "OK")
       then "    => [SEVERITY: " ++ Severity r ++ "] " ++ Issues r ++ nl
       else ""))%string.

(** [[rt for rt, var in self.selected_record_types.items() if var.get()]];
    the dictionary was filled in the order of [DEFAULT_RECORD_TYPES]. *)
Definition checked (w : window) : list string :=
  filter (selected_record_types w) DEFAULT_RECORD_TYPES.

(** The record types that [_run_analysis] ends up with: the checked ones, or
    the narrower list when none is checked in best-practice mode. *)
Definition selection (w : window) : list string :=
  if enable_best_practices w && is_nil (checked w)
  then ["SPF"; "DMARC"; "DKIM"; "BIMI"; "MX"; "A"; "AAAA"; "NS"]
  else checked w.

Section Analysis.

Variable ip_is_private : string -> option bool.
Variable resolver_state : Type.
Variable resolve : resolver_state -> string -> string -> resolver_state * resolution.
Variable argsort : list Z -> list nat.
Variable resolver : creation.

Definition _run_analysis (w : window) (s : resolver_state)
    : outcome (resolver_state * window) :=
  match domains w with
  | [] => Returned (s, display ("Nessun dominio da analizzare." ++ nl) (analysis_results w) w)
  | _ :: _ =>
      let selected := selection w in
      if is_nil selected
      then Returned (s, display ("Nessun tipo di record selezionato." ++ nl)
                          (analysis_results w) w)
      else
        match __init__ resolver (domains w) (Some (dkim_selectors w))
                (enable_best_practices w) with
        | RaisedValueError msg => RaisedValueError msg
        | Raised msg => Raised msg
        | Returned analyzer =>
            let '(s', df) :=
              run ip_is_private resolver_state resolve argsort analyzer (Some selected) s in
            Returned (s', display (String.concat "" (map row_text df)) (Some df) w)
        end
  end.

End Analysis.

End Gui.

Module Cli.

(** How [main] leaves its command-line branch: through [parser.error], with
    the frame that [_run_cli] printed, with the [ValueError] of the
    analyzer, or with an exception of a library. *)
Inductive ending : Type :=
| Usage (message : string)
| Printed (df : list row)
| ConfigurationError (message : string)
| LibraryError (message : string).

Section Main.

Variable ip_is_private : string -> option bool.
Variable resolver_state : Type.
Variable resolve : resolver_state -> string -> string -> resolver_state * resolution.
Variable argsort : list Z -> list nat.
Variable resolver : creation.

(** [_run_cli], up to the frame it prints; writing the output file comes
    after and does not change the frame. *)
Definition _run_cli (domains selectors : list string) (best : bool) (s : resolver_state)
    : resolver_state * ending :=
  match __init__ resolver domains (Some selectors) best with
  | RaisedValueError msg => (s, ConfigurationError msg)
  | Raised msg => (s, LibraryError msg)
  | Returned analyzer =>
      let '(s', df) := run ip_is_private resolver_state resolve argsort analyzer None s in
      (s', Printed df)
  end.

(** The branch [if args.cli:] of [main]; [domain] and [selector] are what
    the repeatable options gave, [None] when the option was not used. *)
Definition main_cli (domain selector : option (list string)) (best : bool)
    (s : resolver_state) : resolver_state * ending :=
  match domain with
  | None => (s, Usage "Con --cli è obbligatorio almeno un --domain")
  | Some [] => (s, Usage "Con --cli è obbligatorio almeno un --domain")
  | Some (d :: ds) =>
      _run_cli (d :: ds)
        (match selector with Some (x :: l) => x :: l | Some [] => [] | None => [] end)
        best s
  end.

End Main.

End Cli.

(** Lists as the window keeps them: no entry twice, no empty entry. *)
Definition tidy (items : list string) : Prop := NoDup items /\ ~ In "" items.

(** What the two ways of adding keep true of a list and its tree view. *)
Definition domains_kept (w w' : Gui.window) : Prop :=
  tidy (Gui.domains w') /\ Gui.domain_list w' = Gui.domains w'
  /\ incl (Gui.domains w) (Gui.domains w')
  /\ Gui.dkim_selectors w' = Gui.dkim_selectors w.

Definition selectors_kept (w w' : Gui.window) : Prop :=
  tidy (Gui.dkim_selectors w') /\ Gui.dkim_list w' = Gui.dkim_selectors w'
  /\ incl (Gui.dkim_selectors w) (Gui.dkim_selectors w')
  /\ Gui.domains w' = Gui.domains w.

(** A resolver that answers from a table and keeps the list of the lookups
    it was asked, each with the name and the type queried. *)
Definition logging (table : string -> string -> resolution)
    (log : list (string * string)) (query_domain rtype : string)
    : list (string * string) * resolution :=
  (log ++ [(query_domain, rtype)], table query_domain rtype).

(** The lookup that an entry of the plan asks for, if any. *)
Definition asked (d : dispatch) : list (string * string) :=
  match d with
  | Marker _ => []
  | Lookup _ query_domain rtype _ _ => [(query_domain, rtype)]
  end.

(** A window with one domain listed and a second one typed in. *)
Definition sample_window : Gui.window :=
  Gui.mk_window ["a.com"] ["s1"] (fun rt => rt =? "MX") false None
    "  b.com " ["a.com"] " s2" ["s1"] "".

Definition dmarc_answers : list string :=
  ["v=DMARC1; p=reject; rua=mailto:d@example.com"; "v=dmarc1; p=none"; "unrelated"].

Definition bimi_answers : list string :=
  ["v=BIMI1; l=https://example.com/logo.svg; a=https://example.com/vmc.pem"].

(** * Properties *)

(** ** Strings *)

Lemma lower_upper_char (c : ascii) : Str.lower_char (Str.upper_char c) = Str.lower_char c.
Proof. destruct c as [[] [] [] [] [] [] [] []]; reflexivity. Qed.

Lemma lower_lower_char (c : ascii) : Str.lower_char (Str.lower_char c) = Str.lower_char c.
Proof. destruct c as [[] [] [] [] [] [] [] []]; reflexivity. Qed.

Lemma upper_lower_char (c : ascii) : Str.upper_char (Str.lower_char c) = Str.upper_char c.
Proof. destruct c as [[] [] [] [] [] [] [] []]; reflexivity. Qed.

Lemma upper_upper_char (c : ascii) : Str.upper_char (Str.upper_char c) = Str.upper_char c.
Proof. destruct c as [[] [] [] [] [] [] [] []]; reflexivity. Qed.

Lemma upper_char_not_v (c : ascii) : Str.upper_char c <> "v"%char.
Proof. destruct c as [[] [] [] [] [] [] [] []]; discriminate. Qed.

Lemma lower_upper (s : string) : Str.lower (Str.upper s) = Str.lower s.
Proof. induction s as [|c t IH]; simpl; [reflexivity|]. now rewrite lower_upper_char, IH. Qed.

Lemma lower_lower (s : string) : Str.lower (Str.lower s) = Str.lower s.
Proof. induction s as [|c t IH]; simpl; [reflexivity|]. now rewrite lower_lower_char, IH. Qed.

Lemma upper_lower (s : string) : Str.upper (Str.lower s) = Str.upper s.
Proof. induction s as [|c t IH]; simpl; [reflexivity|]. now rewrite upper_lower_char, IH. Qed.

Lemma upper_upper (s : string) : Str.upper (Str.upper s) = Str.upper s.
Proof. induction s as [|c t IH]; simpl; [reflexivity|]. now rewrite upper_upper_char, IH. Qed.

Lemma prefix_head (a c : ascii) (needle t : string) :
  prefix (String a needle) (String c t) = true -> a = c.
Proof. simpl. destruct (ascii_dec a c); [trivial | discriminate]. Qed.

(** A text in upper case has no ["v"], hence no occurrence of a needle that
    starts with one. *)
Lemma no_v_in_upper (needle s : string) :
  Str.contains (String "v"%char needle) (Str.upper s) = false.
Proof.
  induction s as [|c t IH]; [reflexivity|].
  cbn [Str.upper Str.contains]. rewrite IH, orb_false_r.
  destruct (prefix _ _) eqn:E; [|reflexivity].
  apply prefix_head in E. symmetry in E. now destruct (upper_char_not_v c).
Qed.

Lemma bimi_valid_lower (rec : string) :
  bimi_valid rec = Str.contains "v=bimi1" (Str.lower rec).
Proof. unfold bimi_valid. now rewrite no_v_in_upper. Qed.

(** ** Construction *)

(** C9, as amended. Constructing the analyzer from an empty list of domains
    raises the configuration error whatever the selectors, the
    best-practice flag and the host are: the check comes first.  From a
    list with at least one domain the construction never raises the
    configuration error: it returns the analyzer with the domains, the
    selectors (none standing for the empty list) and the flag when the
    resolver can be created, and raises what the creation of the resolver
    raises otherwise. *)
Theorem init_raises_iff_no_domain :
  forall (resolver : creation) (dkim_selectors : option (list string))
         (enable_best_practices : bool),
    __init__ resolver [] dkim_selectors enable_best_practices
      = RaisedValueError "La lista domini non può essere vuota."
    /\ forall (d : string) (ds : list string),
         __init__ resolver (d :: ds) dkim_selectors enable_best_practices
           = match resolver with
             | Created =>
                 Returned (mk_analyzer (d :: ds)
                             (match dkim_selectors with Some l => l | None => [] end)
                             enable_best_practices)
             | NotCreated msg => Raised msg
             end
         /\ forall msg,
              __init__ resolver (d :: ds) dkim_selectors enable_best_practices
              <> RaisedValueError msg.
Proof.
  intros resolver sels bp. split; [reflexivity|]. intros d ds.
  split; [reflexivity|]. intros msg. destruct resolver; discriminate.
Qed.

(** C9, as stated, fails: on a host where the resolver cannot be created the
    construction raises although the list of domains is not empty. *)
Lemma init_without_resolver_cex :
  let unconfigured :=
    NotCreated "Resolver configuration could not be read or specified no nameservers." in
  __init__ unconfigured ["example.com"] None false
    = Raised "Resolver configuration could not be read or specified no nameservers."
  /\ forall analyzer, __init__ unconfigured ["example.com"] None false <> Returned analyzer.
Proof. split; [reflexivity | discriminate]. Qed.

(** ** The validity filters *)

(** C7. The DMARC filter keeps exactly the answers that contain ["v=DMARC1"]
    as written, so an answer that only has ["v=dmarc1"] is dropped; the SPF
    and BIMI filters look for their token in the lower-cased answer and give
    the same verdict on an answer, its upper-case and its lower-case form. *)
Theorem dmarc_filter_is_case_sensitive :
  (forall records rec,
      In rec (filter_records "DMARC" records)
      <-> In rec records /\ Str.contains "v=DMARC1" rec = true)
  /\ filter_records "DMARC" ["v=dmarc1; p=reject; rua=mailto:d@example.com"] = []
  /\ filter_records "DMARC" ["v=DMARC1; p=reject"] = ["v=DMARC1; p=reject"]
  /\ (forall records, filter_records "SPF" records = filter spf_valid records)
  /\ (forall records, filter_records "BIMI" records = filter bimi_valid records)
  /\ (forall rec, spf_valid rec = Str.contains "v=spf1" (Str.lower rec)
                  /\ spf_valid (Str.upper rec) = spf_valid rec
                  /\ spf_valid (Str.lower rec) = spf_valid rec)
  /\ (forall rec, bimi_valid rec = Str.contains "v=bimi1" (Str.lower rec)
                  /\ bimi_valid (Str.upper rec) = bimi_valid rec
                  /\ bimi_valid (Str.lower rec) = bimi_valid rec).
Proof.
  split; [|split; [|split; [|split; [|split; [|split]]]]]; try reflexivity.
  - intros records rec. unfold filter_records. simpl. apply filter_In.
  - intros rec. unfold spf_valid. rewrite lower_upper, lower_lower. auto.
  - intros rec. rewrite !bimi_valid_lower, lower_upper, lower_lower. auto.
Qed.

(** ** The best-practice rules *)

Lemma rank_bounds (level : string) : (0 <= _severity_rank level <= 4)%Z.
Proof.
  unfold _severity_rank.
  repeat match goal with |- context [if ?b then _ else _] => destruct b end; lia.
Qed.

Lemma max_severity_rank (severity level : string) :
  _severity_rank (max_severity severity level)
  = Z.max (_severity_rank severity) (_severity_rank level).
Proof.
  unfold max_severity.
  destruct (Z.ltb_spec (_severity_rank severity) (_severity_rank level)); lia.
Qed.

Lemma nodup_all_equal (p : Z) (l : list Z) :
  l <> [] -> (forall q, In q l -> q = p) -> nodup Z.eq_dec l = [p].
Proof.
  induction l as [|x t IH]; intros Hne Hall; [congruence|].
  assert (x = p) by (apply Hall; now left). subst x.
  simpl. destruct (in_dec Z.eq_dec p t) as [Hin|Hnin].
  - apply IH; [intros ->; contradiction | intros q Hq; apply Hall; now right].
  - destruct t as [|y t]; [reflexivity|].
    exfalso. apply Hnin. left. apply Hall. right. now left.
Qed.

Section Rules.

Variable ip_is_private : string -> option bool.

Local Abbreviation check := (_check_best_practices ip_is_private).

(** C2, as amended. With at least two values whose leading token is a
    number, all of these numbers being the same, the MX evaluation ends at
    [WARN] with the finding that all records share one priority. *)
Theorem mx_single_priority_warns (values : list string) :
  2 <= List.length (mx_priorities values) ->
  (forall p q, In p (mx_priorities values) -> In q (mx_priorities values) -> p = q) ->
  check "MX" values = ("WARN", "Tutti i record MX hanno la stessa priorità")
  /\ (_severity_rank "WARN" <= _severity_rank (fst (check "MX" values)))%Z.
Proof.
  intros Hlen Hsame.
  assert (E : check "MX" values = ("WARN", "Tutti i record MX hanno la stessa priorità")).
  { destruct values as [|v0 vs]; [simpl in Hlen; lia|].
    unfold _check_best_practices, check_mx. cbn [String.eqb Ascii.eqb Bool.eqb].
    remember (mx_priorities (v0 :: vs)) as prio eqn:Hp.
    destruct prio as [|p0 rest]; [simpl in Hlen; lia|].
    unfold distinct.
    rewrite (nodup_all_equal p0) by (try discriminate; intros q Hq; apply Hsame; simpl; auto).
    destruct rest as [|p1 rest]; [simpl in Hlen; lia|].
    reflexivity. }
  split; [exact E|]. rewrite E. simpl. lia.
Qed.

(** *** DKIM keys *)

Lemma dkim_key_step_rank (v : verdict) (val : string) :
  (_severity_rank (fst v) <= _severity_rank (fst (dkim_key_step v val)))%Z.
Proof.
  unfold dkim_key_step.
  destruct (Str.contains "p=" val); [|lia].
  destruct (length (key_part val) <? 160)%nat.
  - change (fst (set_to "CRITICAL" "Chiave DKIM molto corta (<1024 bit?)" v)) with "CRITICAL".
    change (_severity_rank "CRITICAL") with 4%Z.
    pose proof (rank_bounds (fst v)). lia.
  - destruct (length (key_part val) <? 300)%nat; [|lia].
    cbn [raise_to fst]. rewrite max_severity_rank. lia.
Qed.

Lemma dkim_key_step_critical (v : verdict) (val : string) :
  fst v = "CRITICAL" -> fst (dkim_key_step v val) = "CRITICAL".
Proof.
  intros Hv. unfold dkim_key_step.
  destruct (Str.contains "p=" val); [|exact Hv].
  destruct (length (key_part val) <? 160)%nat; [reflexivity|].
  destruct (length (key_part val) <? 300)%nat; [|exact Hv].
  simpl. now rewrite Hv.
Qed.

Lemma dkim_keys_rank (values : list string) (v : verdict) :
  (_severity_rank (fst v) <= _severity_rank (fst (fold_left dkim_key_step values v)))%Z.
Proof.
  revert v. induction values as [|x t IH]; intros v; simpl; [lia|].
  pose proof (dkim_key_step_rank v x). specialize (IH (dkim_key_step v x)). lia.
Qed.

Lemma dkim_keys_critical (values : list string) (v : verdict) :
  fst v = "CRITICAL" -> fst (fold_left dkim_key_step values v) = "CRITICAL".
Proof.
  revert v. induction values as [|x t IH]; intros v Hv; simpl; [exact Hv|].
  apply IH. now apply dkim_key_step_critical.
Qed.

(** The loop over the values, seen from one of them. *)
Lemma dkim_keys_at (values : list string) (val : string) (v : verdict) :
  In val values ->
  exists v1 rest,
    fold_left dkim_key_step values v = fold_left dkim_key_step rest (dkim_key_step v1 val).
Proof.
  revert v. induction values as [|x t IH]; intros v Hin; [contradiction|].
  destruct Hin as [->|Hin].
  - exists v, t. reflexivity.
  - simpl. apply IH. exact Hin.
Qed.

(** C8, as amended. For a DKIM value that contains ["p="], the key text
    is what follows the last ["p="] up to the next [";"] or the end,
    without the white space around it.  The step of the loop for this
    value and the final severity go by its length: under 160 the severity
    is set to [CRITICAL] and stays there; under 300 it is raised to [WARN]
    at least; from 300 on the step changes neither severity nor
    findings. *)
Theorem dkim_key_length_rule (values : list string) (val : string) (v : verdict) :
  In val values ->
  Str.contains "p=" val = true ->
  key_part val = Str.strip (Str.first (Str.split ";" (Str.final (Str.split "p=" val))))
  /\ if (length (key_part val) <? 160)%nat then
       dkim_key_step v val = set_to "CRITICAL" "Chiave DKIM molto corta (<1024 bit?)" v
       /\ fst (check "DKIM" values) = "CRITICAL"
     else if (length (key_part val) <? 300)%nat then
       dkim_key_step v val = raise_to "WARN" "Chiave DKIM <2048 bit" v
       /\ (_severity_rank "WARN" <= _severity_rank (fst (check "DKIM" values)))%Z
     else dkim_key_step v val = v.
Proof.
  intros Hin Hp. split; [reflexivity|].
  assert (Hstep : forall u, dkim_key_step u val =
            if (length (key_part val) <? 160)%nat
            then set_to "CRITICAL" "Chiave DKIM molto corta (<1024 bit?)" u
            else if (length (key_part val) <? 300)%nat
                 then raise_to "WARN" "Chiave DKIM <2048 bit" u
                 else u).
  { intros u. unfold dkim_key_step. now rewrite Hp. }
  unfold _check_best_practices, check_dkim. cbn [String.eqb Ascii.eqb Bool.eqb].
  set (combined := Str.lower (Str.join " | " values)).
  set (v0 := when (negb (Str.contains "k=rsa" combined)) _ _).
  destruct (dkim_keys_at values val v0 Hin) as (v1 & rest & E).
  rewrite E, !Hstep.
  destruct (length (key_part val) <? 160)%nat eqn:H160.
  - split; [reflexivity|].
    assert (C : fst (fold_left dkim_key_step rest
                       (set_to "CRITICAL" "Chiave DKIM molto corta (<1024 bit?)" v1))
                = "CRITICAL") by (now apply dkim_keys_critical).
    unfold when. destruct (1 <? List.length values)%nat; cbn [raise_to fst]; [|exact C].
    now rewrite C.
  - destruct (length (key_part val) <? 300)%nat eqn:H300; [|reflexivity].
    split; [reflexivity|].
    assert (C : (3 <= _severity_rank (fst (fold_left dkim_key_step rest
                       (raise_to "WARN" "Chiave DKIM <2048 bit" v1))))%Z).
    { etransitivity; [|apply dkim_keys_rank].
      cbn [raise_to fst]. rewrite max_severity_rank.
      change (_severity_rank "WARN") with 3%Z. lia. }
    change (_severity_rank "WARN") with 3%Z.
    unfold when. destruct (1 <? List.length values)%nat; cbn [raise_to fst]; [|exact C].
    rewrite max_severity_rank. lia.
Qed.

End Rules.

(** ** Queries and the loops of [run] *)

Lemma fold_left_flat_map {A B C : Type} (f : A -> C -> A) (g : B -> list C)
    (l : list B) (w : A) :
  fold_left f (flat_map g l) w = fold_left (fun w x => fold_left f (g x) w) l w.
Proof.
  revert w. induction l as [|x t IH]; intros w; simpl; [reflexivity|].
  now rewrite fold_left_app, IH.
Qed.

Lemma fold_left_map {A B C : Type} (f : A -> C -> A) (g : B -> C) (l : list B) (w : A) :
  fold_left f (map g l) w = fold_left (fun w x => f w (g x)) l w.
Proof. revert w. induction l as [|x t IH]; intros w; simpl; [reflexivity|]. apply IH. Qed.

Lemma fold_left_ext {A B : Type} (f g : A -> B -> A) (l : list B) (w : A) :
  (forall w x, f w x = g w x) -> fold_left f l w = fold_left g l w.
Proof.
  intros H. revert w. induction l as [|x t IH]; intros w; simpl; [reflexivity|].
  now rewrite H, IH.
Qed.

Section Run.

Variable ip_is_private : string -> option bool.
Variable resolver_state : Type.
Variable resolve : resolver_state -> string -> string -> resolver_state * resolution.

Local Abbreviation query := (_query_and_collect ip_is_private resolver_state resolve).
Local Abbreviation answered := (answer_row ip_is_private).
Local Abbreviation collected := (collect ip_is_private resolver_state resolve).
Local Abbreviation performed := (perform ip_is_private resolver_state resolve).

Lemma answer_row_key analyzer domain logical_type selector records :
  row_key (answered analyzer domain logical_type selector records)
  = (domain, logical_type, selector_text selector).
Proof.
  unfold answer_row.
  destruct (if enable_best_practices analyzer then _ else _) as [sev details].
  destruct (needs_valid_record logical_type && is_nil _); reflexivity.
Qed.

Lemma answer_row_issues analyzer domain logical_type selector records :
  let r := answered analyzer domain logical_type selector records in
  Severity r = "" \/ Severity r = "OK" -> Issues r = "".
Proof.
  unfold answer_row.
  destruct (if enable_best_practices analyzer then _ else _) as [sev details].
  destruct (needs_valid_record logical_type && is_nil _);
    cbn [Severity Issues]; intros [E|E]; rewrite E; reflexivity.
Qed.

(** C6. When the lookup for SPF, DMARC or BIMI returns and no answer passes
    the validity filter, the row appended has the marker text for the type
    as its value, and [CRITICAL] as severity in best-practice mode, no
    severity otherwise, whatever the rules computed. *)
Theorem no_valid_record_row analyzer domain query_domain rtype logical_type selector
    (s s' : resolver_state) (answers : list string) :
  needs_valid_record logical_type = true ->
  resolve s query_domain rtype = (s', Answer answers) ->
  filter_records logical_type answers = [] ->
  forall rows,
  query analyzer domain query_domain rtype logical_type selector (s, rows)
  = (s', rows ++
         [ {| Domain := domain;
              RecordType := logical_type;
              Selector := selector_text selector;
              Value := "Nessun record " ++ logical_type ++ " valido";
              Issues := if enable_best_practices analyzer
                        then "Nessun record " ++ logical_type ++ " valido" else "";
              Severity := if enable_best_practices analyzer then "CRITICAL" else "" |} ]).
Proof.
  intros Hneeds Hres Hnone rows.
  unfold _query_and_collect. rewrite Hres.
  unfold answer_row. rewrite Hnone, Hneeds.
  destruct (enable_best_practices analyzer).
  - destruct (_check_best_practices ip_is_private logical_type []) as [sev details].
    reflexivity.
  - reflexivity.
Qed.

(** *** [run] follows the dispatch plan *)

Lemma run_rtype_plan analyzer domain (w : world resolver_state) rtype :
  run_rtype ip_is_private resolver_state resolve analyzer domain w rtype
  = fold_left (performed analyzer) (dispatch_rtype analyzer domain rtype) w.
Proof.
  unfold run_rtype, dispatch_rtype.
  destruct (rtype =? "DKIM").
  - destruct (dkim_selectors analyzer) as [|sel sels] eqn:E; [reflexivity|].
    rewrite fold_left_map. reflexivity.
  - repeat match goal with |- context [if ?b then _ else _] => destruct b end;
      reflexivity.
Qed.

Lemma collect_plan analyzer selected (s : resolver_state) :
  collected analyzer selected s
  = fold_left (performed analyzer) (plan analyzer (record_types_of analyzer selected)) (s, []).
Proof.
  unfold collect, plan, run_domain. rewrite fold_left_flat_map.
  apply fold_left_ext. intros w domain. rewrite fold_left_flat_map.
  apply fold_left_ext. intros w' rtype. apply run_rtype_plan.
Qed.

Lemma perform_appends analyzer (w : world resolver_state) (d : dispatch) :
  exists r, snd (performed analyzer w d) = snd w ++ [r] /\ made ip_is_private analyzer r d.
Proof.
  destruct d as [domain|domain query_domain rtype logical_type selector]; simpl.
  - eexists. split; reflexivity.
  - unfold _query_and_collect. destruct w as [s out].
    destruct (resolve s query_domain rtype) as [s' [answers|message]]; simpl;
      eexists; (split; [reflexivity|]); [left|right]; eexists; reflexivity.
Qed.

Lemma perform_all analyzer (entries : list dispatch) (w : world resolver_state) :
  exists rows,
    snd (fold_left (performed analyzer) entries w) = snd w ++ rows
    /\ Forall2 (made ip_is_private analyzer) rows entries.
Proof.
  revert w. induction entries as [|d t IH]; intros w; simpl.
  - exists []. split; [now rewrite app_nil_r | constructor].
  - destruct (perform_appends analyzer w d) as (r & Hr & Hmade).
    destruct (IH (performed analyzer w d)) as (rows & Hrows & Hall).
    exists (r :: rows). split; [|now constructor].
    rewrite Hrows, Hr, <- app_assoc. reflexivity.
Qed.

Lemma made_key analyzer r d : made ip_is_private analyzer r d -> row_key r = dispatch_key d.
Proof.
  destruct d as [domain|domain query_domain rtype logical_type selector]; simpl.
  - intros ->. reflexivity.
  - intros [[answers ->]|[message ->]]; [apply answer_row_key | reflexivity].
Qed.

Lemma made_keys analyzer rows entries :
  Forall2 (made ip_is_private analyzer) rows entries -> map row_key rows = map dispatch_key entries.
Proof.
  induction 1 as [|r d rows entries Hm _ IH]; simpl; [reflexivity|].
  now rewrite (made_key _ _ _ Hm), IH.
Qed.

Lemma dispatch_rtype_keys analyzer domain rtype :
  map dispatch_key (dispatch_rtype analyzer domain rtype) = expected_keys analyzer domain rtype.
Proof.
  unfold dispatch_rtype, expected_keys.
  destruct (rtype =? "DKIM").
  - destruct (dkim_selectors analyzer) as [|sel sels]; [reflexivity|].
    rewrite map_map. reflexivity.
  - destruct (String.eqb_spec rtype "DMARC") as [->|_]; [reflexivity|].
    destruct (String.eqb_spec rtype "SPF") as [->|_]; [reflexivity|].
    destruct (String.eqb_spec rtype "BIMI") as [->|_]; reflexivity.
Qed.

Lemma domain_keys analyzer domain record_types :
  map dispatch_key (flat_map (dispatch_rtype analyzer domain) record_types)
  = flat_map (expected_keys analyzer domain) record_types.
Proof.
  induction record_types as [|rtype ts IH]; [reflexivity|].
  cbn [flat_map]. now rewrite map_app, IH, dispatch_rtype_keys.
Qed.

Lemma plan_keys analyzer record_types :
  map dispatch_key (plan analyzer record_types)
  = flat_map (fun domain => flat_map (expected_keys analyzer domain) record_types)
             (domains analyzer).
Proof.
  unfold plan. induction (domains analyzer) as [|domain ds IH]; [reflexivity|].
  cbn [flat_map]. now rewrite map_app, IH, domain_keys.
Qed.

Lemma collect_rows analyzer selected (s : resolver_state) :
  exists rows,
    snd (collected analyzer selected s) = rows
    /\ Forall2 (made ip_is_private analyzer) rows
         (plan analyzer (record_types_of analyzer selected)).
Proof.
  rewrite collect_plan.
  destruct (perform_all analyzer (plan analyzer (record_types_of analyzer selected)) (s, []))
    as (rows & Hrows & Hall).
  exists rows. split; [exact Hrows | exact Hall].
Qed.

End Run.

(** ** Sorting *)

Section Positions.

Context {A : Type}.

Lemma nth_positions (d : A) (pre l : list A) :
  map (fun i => nth i (pre ++ l) d) (seq (List.length pre) (List.length l)) = l.
Proof.
  revert pre. induction l as [|x t IH]; intros pre; [reflexivity|].
  cbn [List.length seq map]. rewrite nth_middle. f_equal.
  specialize (IH (pre ++ [x])). rewrite <- app_assoc, length_app in IH.
  cbn [List.length app] in IH. rewrite Nat.add_1_r in IH. exact IH.
Qed.

Lemma nth_all_positions (d : A) (l : list A) :
  map (fun i => nth i l d) (seq 0 (List.length l)) = l.
Proof. exact (nth_positions d [] l). Qed.

End Positions.

Lemma distinct_positions_NoDup (idx : list nat) :
  distinct_positions idx = true -> NoDup idx.
Proof.
  induction idx as [|i t IH]; simpl; intros H; [constructor|].
  apply andb_true_iff in H. destruct H as [Hi Ht].
  constructor; [|now apply IH].
  intros Hin. apply negb_true_iff in Hi.
  assert (E : existsb (Nat.eqb i) t = true).
  { apply existsb_exists. exists i. split; [exact Hin | apply Nat.eqb_refl]. }
  congruence.
Qed.

Lemma positions_of_spec (n : nat) (idx : list nat) :
  positions_of n idx = true ->
  Permutation idx (seq 0 n) /\ Forall (fun i => i < n) idx.
Proof.
  unfold positions_of. intros H.
  apply andb_true_iff in H. destruct H as [H Hd].
  apply andb_true_iff in H. destruct H as [Hl Hb].
  apply Nat.eqb_eq in Hl.
  assert (Hall : Forall (fun i => i < n) idx).
  { apply Forall_forall. intros i Hi.
    rewrite forallb_forall in Hb. apply Nat.ltb_lt. now apply Hb. }
  split; [|exact Hall].
  apply NoDup_Permutation_bis.
  - now apply distinct_positions_NoDup.
  - rewrite length_seq. lia.
  - intros i Hi. apply in_seq. rewrite Forall_forall in Hall. specialize (Hall i Hi). lia.
Qed.

Section Orders.

Context {A B : Type}.

Lemma StronglySorted_snoc (Q : A -> A -> Prop) (l : list A) (z : A) :
  StronglySorted Q l -> Forall (fun y => Q y z) l -> StronglySorted Q (l ++ [z]).
Proof.
  induction 1 as [|x t Ht IH Hx]; intros Hz; simpl.
  - constructor; constructor.
  - inversion Hz as [|? ? Hxz Htz]; subst.
    constructor; [now apply IH|].
    apply Forall_app. split; [exact Hx | now constructor].
Qed.

Lemma StronglySorted_rev_map (P : B -> B -> Prop) (Q : A -> A -> Prop) (g : B -> A)
    (l : list B) :
  (forall x y, In x l -> In y l -> P x y -> Q (g y) (g x)) ->
  StronglySorted P l -> StronglySorted Q (rev (map g l)).
Proof.
  intros HPQ Hs. induction Hs as [|x t Ht IH Hx]; simpl; [constructor|].
  apply StronglySorted_snoc.
  - apply IH. intros a b Ha Hb. apply HPQ; now right.
  - apply Forall_forall. intros y Hy.
    apply in_rev, in_map_iff in Hy. destruct Hy as (b & <- & Hb).
    rewrite Forall_forall in Hx. apply HPQ; [now left | now right | now apply Hx].
Qed.

Lemma StronglySorted_map (Q : A -> A -> Prop) (g : B -> A) (l : list B) :
  StronglySorted (fun x y => Q (g x) (g y)) l -> StronglySorted Q (map g l).
Proof.
  induction 1 as [|x t Ht IH Hx]; simpl; constructor; [exact IH|].
  apply Forall_map. exact Hx.
Qed.

Lemma StronglySorted_weaken (P Q : A -> A -> Prop) (l : list A) :
  (forall x y, In x l -> In y l -> P x y -> Q x y) ->
  StronglySorted P l -> StronglySorted Q l.
Proof.
  intros HPQ Hs. induction Hs as [|x t Ht IH Hx]; constructor.
  - apply IH. intros a b Ha Hb. apply HPQ; now right.
  - rewrite Forall_forall in *. intros y Hy. apply HPQ; [now left | now right | now apply Hx].
Qed.

End Orders.

Lemma adjacent_Sorted (ok : nat -> nat -> bool) (idx : list nat) :
  adjacent ok idx = true -> Sorted (fun i j => ok i j = true) idx.
Proof.
  induction idx as [|i t IH]; intros H; [constructor|].
  destruct t as [|j t'].
  - constructor; constructor.
  - cbn [adjacent] in H. apply andb_true_iff in H. destruct H as [Hij Ht].
    constructor; [now apply IH | now constructor].
Qed.

Lemma argsort_ok_spec (keys : list Z) (idx : list nat) :
  argsort_ok keys idx = true ->
  Permutation idx (seq 0 (List.length keys))
  /\ Forall (fun i => i < List.length keys) idx
  /\ StronglySorted (by_key keys) idx.
Proof.
  unfold argsort_ok. intros H. apply andb_true_iff in H. destruct H as [Hp Ha].
  destruct (positions_of_spec _ _ Hp) as [Hperm Hall].
  split; [exact Hperm|]. split; [exact Hall|].
  apply Sorted_StronglySorted.
  - intros i j k. unfold by_key. lia.
  - apply adjacent_Sorted in Ha. revert Ha. apply Sorted_ind.
    + constructor.
    + intros i l _ IH Hhd. constructor; [exact IH|].
      destruct Hhd as [|j l' Hij]; constructor. now apply Z.leb_le.
Qed.

Lemma argsort_stable_spec (keys : list Z) (idx : list nat) :
  argsort_stable keys idx = true ->
  Permutation idx (seq 0 (List.length keys))
  /\ Forall (fun i => i < List.length keys) idx
  /\ StronglySorted (by_key_then_position keys) idx.
Proof.
  unfold argsort_stable. intros H. apply andb_true_iff in H. destruct H as [Hp Ha].
  destruct (positions_of_spec _ _ Hp) as [Hperm Hall].
  split; [exact Hperm|]. split; [exact Hall|].
  apply Sorted_StronglySorted.
  - intros i j k. unfold by_key_then_position. lia.
  - apply adjacent_Sorted in Ha. revert Ha. apply Sorted_ind.
    + constructor.
    + intros i l _ IH Hhd. constructor; [exact IH|].
      destruct Hhd as [|j l' Hij]; constructor.
      unfold by_key_then_position.
      apply orb_true_iff in Hij. destruct Hij as [Hlt|Heq].
      * left. now apply Z.ltb_lt.
      * right. apply andb_true_iff in Heq. destruct Heq as [He Hl].
        split; [now apply Z.eqb_eq | now apply Nat.ltb_lt].
Qed.

Lemma mirror_position (n j : nat) : j < n -> nth j (rev (seq 0 n)) 0 = n - S j.
Proof.
  intros Hj. rewrite rev_nth by (rewrite length_seq; exact Hj).
  rewrite length_seq. rewrite seq_nth by lia. reflexivity.
Qed.

Lemma mirror_key (keys : list Z) (j : nat) :
  j < List.length keys -> key_at (rev keys) j = key_at keys (List.length keys - S j).
Proof. intros Hj. unfold key_at. now apply rev_nth. Qed.

Lemma take_in_range (d : row) (rows : list row) (idx : list nat) :
  Forall (fun i => i < List.length rows) idx ->
  take rows idx = map (fun i => nth i rows d) idx.
Proof.
  induction 1 as [|i t Hi _ IH]; [reflexivity|].
  unfold take in *. cbn [flat_map map]. rewrite IH.
  rewrite (nth_error_nth' rows d Hi). reflexivity.
Qed.

Lemma take_In (rows : list row) (idx : list nat) (r : row) :
  In r (take rows idx) -> In r rows.
Proof.
  unfold take. intros H. apply in_flat_map in H. destruct H as (i & _ & Hi).
  destruct (nth_error rows i) as [r'|] eqn:E; [|contradiction].
  destruct Hi as [<-|[]]. eapply nth_error_In. exact E.
Qed.

Lemma take_all (rows : list row) : take rows (seq 0 (List.length rows)) = rows.
Proof.
  rewrite (take_in_range (mk_row "" "" "" "" "" "")).
  - apply nth_all_positions.
  - apply Forall_forall. intros i Hi. apply in_seq in Hi. lia.
Qed.

(** The key of a position is the rank of the row there. *)
Lemma key_of_row (rows : list row) (i : nat) :
  key_at (map rank_of rows) i = rank_of (nth i rows (mk_row "" "" "" "" "" "")).
Proof. unfold key_at. now rewrite <- (map_nth rank_of). Qed.

Section Sorting.

Variable argsort : list Z -> list nat.

(** What [nargsort] makes of a sorting routine that keeps its promise on
    the reversed keys. *)
Lemma nargsort_desc (P Q : nat -> nat -> Prop) (keys : list Z) :
  let n := List.length keys in
  let res := argsort (rev keys) in
  (forall j1 j2, j1 < n -> j2 < n -> P j1 j2 -> Q (n - S j2) (n - S j1)) ->
  Permutation res (seq 0 n) ->
  Forall (fun i => i < n) res ->
  StronglySorted P res ->
  Permutation (nargsort argsort keys false) (seq 0 n)
  /\ Forall (fun i => i < n) (nargsort argsort keys false)
  /\ StronglySorted Q (nargsort argsort keys false).
Proof.
  intros n res HPQ Hperm Hall Hsorted.
  assert (Hix : Permutation (nargsort argsort keys false) (seq 0 n)).
  { unfold nargsort. fold n res.
    rewrite <- Permutation_rev.
    rewrite (Permutation_map _ Hperm).
    pose proof (nth_all_positions 0 (rev (seq 0 n))) as E.
    rewrite length_rev, length_seq in E. rewrite E.
    symmetry. apply Permutation_rev. }
  split; [exact Hix|]. split.
  - apply Forall_forall. intros i Hi.
    apply (Permutation_in _ Hix) in Hi. apply in_seq in Hi. lia.
  - unfold nargsort. fold n res.
    apply StronglySorted_rev_map with (P := P); [|exact Hsorted].
    rewrite Forall_forall in Hall.
    intros x y Hx Hy Hxy.
    rewrite !mirror_position by (now apply Hall).
    apply HPQ; [now apply Hall | now apply Hall | exact Hxy].
Qed.

Lemma nargsort_ok (keys : list Z) :
  argsort_ok (rev keys) (argsort (rev keys)) = true ->
  Permutation (nargsort argsort keys false) (seq 0 (List.length keys))
  /\ Forall (fun i => i < List.length keys) (nargsort argsort keys false)
  /\ StronglySorted (by_key_desc keys) (nargsort argsort keys false).
Proof.
  intros H. apply argsort_ok_spec in H. rewrite length_rev in H.
  destruct H as (Hperm & Hall & Hsorted).
  apply nargsort_desc with (P := by_key (rev keys)); try assumption.
  intros j1 j2 H1 H2. unfold by_key, by_key_desc.
  rewrite !mirror_key by assumption. trivial.
Qed.

Lemma nargsort_stable (keys : list Z) :
  argsort_stable (rev keys) (argsort (rev keys)) = true ->
  StronglySorted (by_key_desc_then_position keys) (nargsort argsort keys false).
Proof.
  intros H. apply argsort_stable_spec in H. rewrite length_rev in H.
  destruct H as (Hperm & Hall & Hsorted).
  apply nargsort_desc with (P := by_key_then_position (rev keys)); try assumption.
  intros j1 j2 H1 H2. unfold by_key_then_position, by_key_desc_then_position.
  rewrite !mirror_key by assumption. lia.
Qed.

(** The sorted frame has the rows of the frame, the most severe first. *)
Lemma sort_values_ok (rows : list row) :
  argsort_ok (rev (map rank_of rows)) (argsort (rev (map rank_of rows))) = true ->
  Permutation (sort_values argsort rows) rows /\ ranks_descend (sort_values argsort rows).
Proof.
  intros H. apply nargsort_ok in H. rewrite length_map in H.
  destruct H as (Hperm & Hall & Hsorted).
  unfold sort_values. fold rank_of. change (fun r => rank_of r) with rank_of. split.
  - unfold take. rewrite (Permutation_flat_map _ Hperm).
    fold (take rows (seq 0 (List.length rows))). now rewrite take_all.
  - rewrite (take_in_range (mk_row "" "" "" "" "" "")) by exact Hall.
    apply StronglySorted_map. revert Hsorted. apply StronglySorted_weaken.
    intros i j _ _. unfold by_key_desc. now rewrite !key_of_row.
Qed.

End Sorting.

(** *** The stable sort *)

Section StableSortFacts.

Context {A : Type} (key : A -> Z).

Lemma insert_desc_perm (x : A) (l : list A) : Permutation (insert_desc key x l) (x :: l).
Proof.
  induction l as [|y t IH]; simpl; [reflexivity|].
  destruct (key y <=? key x)%Z; [reflexivity|].
  rewrite IH. apply perm_swap.
Qed.

Lemma stable_sort_desc_perm (l : list A) : Permutation (stable_sort_desc key l) l.
Proof.
  induction l as [|x t IH]; simpl; [reflexivity|].
  rewrite insert_desc_perm. now constructor.
Qed.

Lemma insert_desc_map {B : Type} (f : B -> A) (x : B) (l : list B) :
  insert_desc key (f x) (map f l) = map f (insert_desc (fun b => key (f b)) x l).
Proof.
  induction l as [|y t IH]; simpl; [reflexivity|].
  destruct (key (f y) <=? key (f x))%Z; simpl; [reflexivity|]. now rewrite IH.
Qed.

Lemma stable_sort_desc_map {B : Type} (f : B -> A) (l : list B) :
  stable_sort_desc key (map f l) = map f (stable_sort_desc (fun b => key (f b)) l).
Proof.
  induction l as [|x t IH]; simpl; [reflexivity|].
  now rewrite IH, insert_desc_map.
Qed.

End StableSortFacts.

Section StableOnPositions.

Variable keys : list Z.

Local Abbreviation before := (by_key_desc_then_position keys).

Lemma before_trans (i j k : nat) : before i j -> before j k -> before i k.
Proof. unfold by_key_desc_then_position. lia. Qed.

Lemma before_asym (i j : nat) : before i j -> before j i -> False.
Proof. unfold by_key_desc_then_position. lia. Qed.

Lemma insert_position_sorted (x : nat) (l : list nat) :
  StronglySorted before l ->
  Forall (fun y => x < y) l ->
  StronglySorted before (insert_desc (key_at keys) x l).
Proof.
  induction 1 as [|y t Ht IH Hy]; intros Hx; simpl.
  - constructor; constructor.
  - inversion Hx as [|? ? Hxy Hxt]; subst.
    destruct (Z.leb_spec (key_at keys y) (key_at keys x)) as [Hle|Hgt].
    + assert (Hb : before x y) by (unfold by_key_desc_then_position; lia).
      constructor; [now constructor|].
      constructor; [exact Hb|].
      rewrite Forall_forall in *. intros z Hz. eapply before_trans; eauto.
    + constructor; [now apply IH|].
      apply Forall_forall. intros z Hz.
      apply (Permutation_in _ (insert_desc_perm _ x t)) in Hz.
      destruct Hz as [<-|Hz].
      * unfold by_key_desc_then_position. lia.
      * rewrite Forall_forall in Hy. now apply Hy.
Qed.

Lemma sorted_positions (a n : nat) :
  StronglySorted before (stable_sort_desc (key_at keys) (seq a n)).
Proof.
  revert a. induction n as [|n IH]; intros a; simpl; [constructor|].
  apply insert_position_sorted; [apply IH|].
  apply Forall_forall. intros y Hy.
  apply (Permutation_in _ (stable_sort_desc_perm _ _)) in Hy.
  apply in_seq in Hy. lia.
Qed.

(** Two arrangements of the same positions in the order by key, then by
    position, are the same arrangement. *)
Lemma sorted_arrangement_unique (l1 l2 : list nat) :
  StronglySorted before l1 -> StronglySorted before l2 ->
  Permutation l1 l2 -> l1 = l2.
Proof.
  intros H1. revert l2. induction H1 as [|x t Ht IH Hx]; intros l2 H2 Hp.
  - apply Permutation_nil in Hp. now subst.
  - destruct H2 as [|y u Hu Hy].
    + apply Permutation_sym, Permutation_nil in Hp. discriminate.
    + assert (E : x = y).
      { assert (Hxin : In x (y :: u)) by (apply (Permutation_in _ Hp); now left).
        assert (Hyin : In y (x :: t))
          by (apply (Permutation_in _ (Permutation_sym Hp)); now left).
        destruct Hxin as [->|Hxu]; [reflexivity|].
        destruct Hyin as [->|Hyt]; [reflexivity|].
        rewrite Forall_forall in Hx, Hy.
        exfalso. apply (before_asym x y); [now apply Hx | now apply Hy]. }
      subst y. f_equal. apply IH; [exact Hu|].
      eapply Permutation_cons_inv. exact Hp.
Qed.

End StableOnPositions.

Section SortingStable.

Variable argsort : list Z -> list nat.

(** With a sorting routine that keeps ties in place, the sorted frame is
    the stable sort of the frame. *)
Lemma sort_values_stable (rows : list row) :
  argsort_stable (rev (map rank_of rows)) (argsort (rev (map rank_of rows))) = true ->
  sort_values argsort rows = stable_sort_desc rank_of rows.
Proof.
  intros H.
  pose proof (nargsort_stable argsort _ H) as Hsorted.
  apply argsort_stable_spec in H. rewrite length_rev in H.
  destruct H as (Hperm & Hall & Hres).
  destruct (nargsort_desc argsort (by_key_then_position (rev (map rank_of rows)))
              (by_key_desc_then_position (map rank_of rows)) (map rank_of rows))
    as (Hix & Hin & _); try assumption.
  { intros j1 j2 H1 H2. unfold by_key_then_position, by_key_desc_then_position.
    rewrite !mirror_key by assumption. lia. }
  rewrite length_map in Hix, Hin.
  set (d := mk_row "" "" "" "" "" "").
  unfold sort_values. fold rank_of. change (fun r => rank_of r) with rank_of.
  rewrite (take_in_range d) by exact Hin.
  transitivity (stable_sort_desc rank_of
                  (map (fun i => nth i rows d) (seq 0 (List.length rows))));
    [|now rewrite nth_all_positions].
  rewrite stable_sort_desc_map. f_equal.
  apply (sorted_arrangement_unique (map rank_of rows)); [exact Hsorted| |].
  - replace (stable_sort_desc _ (seq 0 (List.length rows)))
      with (stable_sort_desc (key_at (map rank_of rows)) (seq 0 (List.length rows))).
    + apply sorted_positions.
    + clear. generalize (seq 0 (List.length rows)). intros l.
      induction l as [|x t IH]; simpl; [reflexivity|]. rewrite IH.
      generalize (stable_sort_desc (fun b => rank_of (nth b rows d)) t). intros u.
      induction u as [|y u IHu]; simpl; [reflexivity|].
      unfold d. rewrite <- !key_of_row, IHu. reflexivity.
  - rewrite Hix. symmetry. apply stable_sort_desc_perm.
Qed.

End SortingStable.

(** *** From the rows returned to the answer of the sorting routine *)

Lemma map_injective_on {A B : Type} (f : A -> B) (P : A -> Prop) (l1 l2 : list A) :
  (forall x y, P x -> P y -> f x = f y -> x = y) ->
  Forall P l1 -> Forall P l2 -> map f l1 = map f l2 -> l1 = l2.
Proof.
  intros Hinj H1. revert l2.
  induction H1 as [|x t Hx _ IH]; intros l2 H2 E; destruct l2 as [|y u];
    try discriminate; [reflexivity|].
  inversion H2 as [|? ? Hy Hu]; subst. cbn [map] in E. injection E as E1 E2.
  f_equal; [now apply Hinj | now apply IH].
Qed.

(** The frame sorted with a routine that returned [answer], when the answer
    lists positions of the frame. *)
Lemma sort_values_answering (rows : list row) (answer : list nat) :
  let n := List.length rows in
  Forall (fun j => j < n) answer ->
  Forall (fun i => i < n) (rev (map (fun j => n - S j) answer))
  /\ sort_values (answering answer) rows
     = map (fun i => nth i rows (mk_row "" "" "" "" "" ""))
           (rev (map (fun j => n - S j) answer)).
Proof.
  intros n Hall.
  assert (Hmirror : Forall (fun i => i < n) (rev (map (fun j => n - S j) answer))).
  { apply Forall_rev, Forall_map. revert Hall. apply Forall_impl. intros j Hj. lia. }
  split; [exact Hmirror|].
  unfold sort_values, nargsort, answering. rewrite length_map. fold n.
  rewrite (map_ext_in _ (fun j => n - S j)).
  - now apply take_in_range.
  - intros j Hj. rewrite Forall_forall in Hall. now apply mirror_position, Hall.
Qed.

(** Rows that are all different tell the answer of the routine: two answers
    that give the same sorted frame are the same answer. *)
Lemma sort_values_tells_the_answer (rows : list row) (a1 a2 : list nat) :
  NoDup rows ->
  Forall (fun j => j < List.length rows) a1 ->
  Forall (fun j => j < List.length rows) a2 ->
  sort_values (answering a1) rows = sort_values (answering a2) rows ->
  a1 = a2.
Proof.
  intros Hnd H1 H2 E.
  destruct (sort_values_answering rows a1 H1) as [M1 E1].
  destruct (sort_values_answering rows a2 H2) as [M2 E2].
  rewrite E1, E2 in E.
  apply (map_injective_on _ (fun i => i < List.length rows)) in E; try assumption.
  - apply (f_equal (@rev nat)) in E. rewrite !rev_involutive in E.
    apply (map_injective_on _ (fun j => j < List.length rows)) in E; try assumption.
    intros x y Hx Hy. lia.
  - intros x y Hx Hy Hxy.
    exact (proj1 (NoDup_nth rows (mk_row "" "" "" "" "" "")) Hnd x y Hx Hy Hxy).
Qed.

(** ** The rows of a run *)

Lemma take_nil (idx : list nat) : take [] idx = [].
Proof.
  unfold take. induction idx as [|i t IH]; [reflexivity|].
  cbn [flat_map]. rewrite IH. now destruct i.
Qed.

Lemma Forall2_In_left {A B : Type} (R : A -> B -> Prop) (l : list A) (l' : list B) (x : A) :
  Forall2 R l l' -> In x l -> exists y, In y l' /\ R x y.
Proof.
  induction 1 as [|a b l l' Hab _ IH]; intros Hin; [contradiction|].
  destruct Hin as [->|Hin].
  - exists b. split; [now left | exact Hab].
  - destruct (IH Hin) as (y & Hy & Hxy). exists y. split; [now right | exact Hxy].
Qed.

Lemma expected_keys_domain analyzer domain rtype :
  exists selector_or_type selector,
    In (domain, selector_or_type, selector) (expected_keys analyzer domain rtype).
Proof.
  unfold expected_keys. destruct (rtype =? "DKIM").
  - destruct (dkim_selectors analyzer) as [|sel sels]; do 2 eexists; left; reflexivity.
  - do 2 eexists. left. reflexivity.
Qed.

Section Claims.

Variable ip_is_private : string -> option bool.
Variable resolver_state : Type.
Variable resolve : resolver_state -> string -> string -> resolver_state * resolution.
Variable argsort : list Z -> list nat.

Local Abbreviation collected := (collect ip_is_private resolver_state resolve).
Local Abbreviation performed := (perform ip_is_private resolver_state resolve).
Local Abbreviation ran := (run ip_is_private resolver_state resolve argsort).

(** [run] returns the sorted rows of the loops; sorting no row gives no row. *)
Lemma run_rows analyzer selected (s : resolver_state) :
  snd (ran analyzer selected s) = sort_values argsort (snd (collected analyzer selected s)).
Proof.
  unfold run. destruct (collect _ _ _ _ _ _) as [s' out]. simpl.
  destruct out as [|r out]; [|reflexivity].
  unfold sort_values. now rewrite take_nil.
Qed.

Lemma collect_keys analyzer selected (s : resolver_state) :
  map row_key (snd (collected analyzer selected s))
  = flat_map (fun domain =>
                flat_map (expected_keys analyzer domain) (record_types_of analyzer selected))
             (domains analyzer).
Proof.
  destruct (collect_rows ip_is_private resolver_state resolve analyzer selected s)
    as (rows & -> & Hall).
  rewrite (made_keys _ _ _ _ Hall). apply plan_keys.
Qed.


(** C3. The rows collected are, in dispatch order, one per domain and
    requested type, except that a DKIM request stands for one row per
    selector, or for one marker row when there is no selector; this holds
    whatever the resolver does.  The rows that [run] returns are these
    rows rearranged, given a sorting routine that keeps its promise. *)
Theorem one_row_per_dispatched_query analyzer selected (s : resolver_state) :
  let out := snd (collected analyzer selected s) in
  let expected :=
    flat_map (fun domain =>
                flat_map (expected_keys analyzer domain) (record_types_of analyzer selected))
             (domains analyzer) in
  argsort_ok (rev (map rank_of out)) (argsort (rev (map rank_of out))) = true ->
  map row_key out = expected
  /\ List.length out = List.length (plan analyzer (record_types_of analyzer selected))
  /\ Permutation (map row_key (snd (ran analyzer selected s))) expected
  /\ List.length (snd (ran analyzer selected s)) = List.length expected.
Proof.
  intros out expected Hok.
  assert (Hkeys : map row_key out = expected) by apply collect_keys.
  destruct (sort_values_ok argsort out Hok) as [Hperm _].
  subst out. rewrite <- run_rows in Hperm.
  split; [exact Hkeys|]. split; [|split].
  - destruct (collect_rows ip_is_private resolver_state resolve analyzer selected s)
      as (rows & E & Hall).
    rewrite E. eapply Forall2_length. exact Hall.
  - rewrite <- Hkeys. now apply Permutation_map.
  - rewrite <- Hkeys, length_map. now apply Permutation_length.
Qed.

(** C4, as amended. A row that [run] returns with no severity or with
    [OK] has empty issues, unless it reports a failed lookup outside
    best-practice mode: that row has no severity and the lookup-error text
    as issues. *)
Theorem issues_empty_without_finding analyzer selected (s : resolver_state) (r : row) :
  In r (snd (ran analyzer selected s)) ->
  Severity r = "" \/ Severity r = "OK" ->
  Issues r = ""
  \/ (enable_best_practices analyzer = false
      /\ Severity r = ""
      /\ Issues r = "Errore di lookup"
      /\ exists domain logical_type selector message,
           r = failure_row analyzer domain logical_type selector message).
Proof.
  intros Hin Hsev. rewrite run_rows in Hin. apply take_In in Hin.
  destruct (collect_rows ip_is_private resolver_state resolve analyzer selected s)
    as (rows & E & Hall).
  rewrite E in Hin.
  destruct (Forall2_In_left _ _ _ _ Hall Hin) as (d & _ & Hmade).
  destruct d as [domain|domain query_domain rtype logical_type selector]; simpl in Hmade.
  - subst r. simpl in Hsev. destruct Hsev; discriminate.
  - destruct Hmade as [[answers ->]|[message ->]].
    + left. now apply answer_row_issues.
    + right. unfold failure_row in *. cbn [Severity Issues] in *.
      destruct (enable_best_practices analyzer).
      * destruct Hsev; discriminate.
      * repeat split. now exists domain, logical_type, selector, message.
Qed.


(** C10. [run] called with the empty list of record types returns what
    [run] called without the argument returns: the types in use are the
    default ones, or the narrower list in best-practice mode, and the rows
    returned are, rearranged, one per domain and type in use (per selector
    for DKIM), so that every domain of the analyzer has a row among them,
    given a sorting routine that keeps its promise. *)
Theorem run_with_empty_selection analyzer (s : resolver_state) :
  let types := if enable_best_practices analyzer
               then ["SPF"; "DMARC"; "DKIM"; "BIMI"; "MX"; "A"; "AAAA"; "NS"]
               else DEFAULT_RECORD_TYPES in
  let out := snd (collected analyzer None s) in
  argsort_ok (rev (map rank_of out)) (argsort (rev (map rank_of out))) = true ->
  ran analyzer (Some []) s = ran analyzer None s
  /\ record_types_of analyzer (Some []) = types
  /\ record_types_of analyzer None = types
  /\ Permutation (map row_key (snd (ran analyzer (Some []) s)))
       (flat_map (fun domain => flat_map (expected_keys analyzer domain) types)
                 (domains analyzer))
  /\ List.length (snd (ran analyzer (Some []) s))
     = List.length (flat_map (fun domain => flat_map (expected_keys analyzer domain) types)
                             (domains analyzer))
  /\ Forall (fun domain => In domain (map Domain (snd (ran analyzer (Some []) s))))
            (domains analyzer).
Proof.
  intros types out Hok.
  assert (Htypes : record_types_of analyzer None = types).
  { unfold record_types_of, types. simpl. now destruct (enable_best_practices analyzer). }
  assert (Hsame : ran analyzer (Some []) s = ran analyzer None s) by reflexivity.
  assert (Hperm : Permutation (map row_key (snd (ran analyzer (Some []) s)))
            (flat_map (fun domain => flat_map (expected_keys analyzer domain) types)
                      (domains analyzer))).
  { rewrite Hsame, run_rows, <- Htypes, <- (collect_keys analyzer None s).
    apply Permutation_map. now apply sort_values_ok. }
  split; [exact Hsame|]. split; [exact Htypes|]. split; [exact Htypes|].
  split; [exact Hperm|]. split.
  - rewrite <- (length_map row_key). now apply Permutation_length.
  - apply Forall_forall. intros domain Hd.
    assert (Hmap : map Domain (snd (ran analyzer (Some []) s))
                   = map (fun k => fst (fst k))
                       (map row_key (snd (ran analyzer (Some []) s)))).
    { rewrite map_map. reflexivity. }
    rewrite Hmap.
    assert (Hne : exists t ts, types = t :: ts).
    { unfold types. destruct (enable_best_practices analyzer); do 2 eexists; reflexivity. }
    destruct Hne as (t & ts & Et).
    destruct (expected_keys_domain analyzer domain t) as (x & y & Hxy).
    apply in_map_iff. exists (domain, x, y). split; [reflexivity|].
    apply (Permutation_in _ (Permutation_sym Hperm)).
    apply in_flat_map. exists domain. split; [exact Hd|].
    rewrite Et. cbn [flat_map]. apply in_or_app. now left.
Qed.

End Claims.

(** ** The properties on sample runs *)



Lemma mx_single_priority_warns_witness :
  _check_best_practices no_address "MX" ["10 mx1.example.com."; "10 mx2.example.com."]
    = ("WARN", "Tutti i record MX hanno la stessa priorità")
  /\ (_severity_rank "WARN"
      <= _severity_rank (fst (_check_best_practices no_address "MX"
                                ["10 mx1.example.com."; "10 mx2.example.com."])))%Z.
Proof.
  apply (mx_single_priority_warns no_address ["10 mx1.example.com."; "10 mx2.example.com."]).
  - vm_compute. lia.
  - vm_compute. intros p q [<-|[<-|[]]] [<-|[<-|[]]]; reflexivity.
Defined.

(** C2, as stated, fails: two entries share the priority 10, a third has the
    priority 20, and the evaluation ends at [OK]. *)
Lemma mx_shared_priority_cex :
  let values := ["10 mx1.example.com."; "10 mx2.example.com."; "20 mx3.example.com."] in
  mx_priorities values = [10; 10; 20]%Z
  /\ count_occ Z.eq_dec (mx_priorities values) 10%Z = 2
  /\ _check_best_practices no_address "MX" values = ("OK", "")
  /\ (_severity_rank "OK" < _severity_rank "WARN")%Z.
Proof. vm_compute. repeat split; reflexivity. Qed.

Lemma one_row_per_dispatched_query_witness :
  let out := snd (collect no_address nat flaky_resolver two_domains (Some ["MX"; "DKIM"]) 0) in
  let rows := snd (run no_address nat flaky_resolver argsort_keeping_ties two_domains
                     (Some ["MX"; "DKIM"]) 0) in
  let expected := [("a.com", "MX", ""); ("a.com", "DKIM", "s1");
                   ("b.com", "MX", ""); ("b.com", "DKIM", "s1")] in
  map row_key out = expected
  /\ List.length out
     = List.length (plan two_domains (record_types_of two_domains (Some ["MX"; "DKIM"])))
  /\ Permutation (map row_key rows) expected
  /\ List.length rows = List.length expected.
Proof.
  apply (one_row_per_dispatched_query no_address nat flaky_resolver argsort_keeping_ties
           two_domains (Some ["MX"; "DKIM"]) 0).
  vm_compute. reflexivity.
Defined.

Lemma issues_empty_without_finding_witness :
  let r := mk_row "example.com" "NS" "" "" "" "" in
  Issues r = ""
  \/ (enable_best_practices one_quiet_domain = false
      /\ Severity r = ""
      /\ Issues r = "Errore di lookup"
      /\ exists domain logical_type selector message,
           r = failure_row one_quiet_domain domain logical_type selector message).
Proof.
  apply (issues_empty_without_finding no_address unit (table_resolver no_records)
           argsort_keeping_ties one_quiet_domain (Some ["NS"]) tt).
  - vm_compute. left. reflexivity.
  - left. reflexivity.
Defined.

(** C4, as stated, fails: outside best-practice mode the row of a failed
    lookup has no severity and yet issues. *)
Lemma issues_on_failed_lookup_cex :
  let rows := snd (run no_address unit (table_resolver unreachable) argsort_keeping_ties
                     one_quiet_domain (Some ["A"]) tt) in
  rows = [mk_row "example.com" "A" "" "timeout" "Errore di lookup" ""]
  /\ exists r, In r rows /\ Severity r = "" /\ Issues r <> "".
Proof.
  vm_compute. split; [reflexivity|].
  eexists. split; [left; reflexivity|]. split; [reflexivity | discriminate].
Qed.

Lemma run_with_empty_selection_witness :
  let types := ["SPF"; "DMARC"; "DKIM"; "BIMI"; "MX"; "A"; "AAAA"; "NS"] in
  let ran := run no_address nat flaky_resolver argsort_keeping_ties two_domains in
  ran (Some []) 0 = ran None 0
  /\ record_types_of two_domains (Some []) = types
  /\ record_types_of two_domains None = types
  /\ Permutation (map row_key (snd (ran (Some []) 0)))
       (flat_map (fun domain => flat_map (expected_keys two_domains domain) types)
                 (domains two_domains))
  /\ List.length (snd (ran (Some []) 0))
     = List.length (flat_map (fun domain => flat_map (expected_keys two_domains domain) types)
                             (domains two_domains))
  /\ Forall (fun domain => In domain (map Domain (snd (ran (Some []) 0))))
            (domains two_domains).
Proof.
  apply (run_with_empty_selection no_address nat flaky_resolver argsort_keeping_ties
           two_domains 0).
  vm_compute. reflexivity.
Defined.


Lemma no_valid_record_row_witness :
  _query_and_collect no_address unit (table_resolver no_records) two_domains
    "example.com" "_dmarc.example.com" "TXT" "DMARC" None (tt, [])
  = (tt, [] ++ [mk_row "example.com" "DMARC" "" "Nessun record DMARC valido"
                  "Nessun record DMARC valido" "CRITICAL"]).
Proof.
  apply (no_valid_record_row no_address unit (table_resolver no_records) two_domains
           "example.com" "_dmarc.example.com" "TXT" "DMARC" None tt tt []);
    reflexivity.
Defined.

Lemma dkim_key_length_rule_witness :
  key_part long_key
    = Str.strip (Str.first (Str.split ";" (Str.final (Str.split "p=" long_key))))
  /\ if (length (key_part long_key) <? 160)%nat then
       dkim_key_step ("OK", []) long_key
         = set_to "CRITICAL" "Chiave DKIM molto corta (<1024 bit?)" ("OK", [])
       /\ fst (_check_best_practices no_address "DKIM" [long_key]) = "CRITICAL"
     else if (length (key_part long_key) <? 300)%nat then
       dkim_key_step ("OK", []) long_key = raise_to "WARN" "Chiave DKIM <2048 bit" ("OK", [])
       /\ (_severity_rank "WARN"
           <= _severity_rank (fst (_check_best_practices no_address "DKIM" [long_key])))%Z
     else dkim_key_step ("OK", []) long_key = ("OK", []).
Proof.
  apply (dkim_key_length_rule no_address [long_key] long_key ("OK", [])).
  - left. reflexivity.
  - vm_compute. reflexivity.
Defined.

(** C8, as stated, fails: the text between the first ["p="] and the next
    [";"] does not decide.  Two values with 300 characters there get
    different verdicts, the white space at the end of the first one not
    counting; and a later ["p="] takes over from the first. *)
Lemma dkim_key_text_cex :
  let padded := ("k=rsa; p=" ++ repeat_text "A" 299 ++ " ")%string in
  let plain := ("k=rsa; p=" ++ repeat_text "A" 300)%string in
  let twice := ("k=rsa; p=" ++ repeat_text "A" 300 ++ "; sp=x")%string in
  Str.contains "p=" padded = true
  /\ length (key_text_in_words padded) = 300
  /\ length (key_text_in_words plain) = 300
  /\ length (key_text_in_words twice) = 300
  /\ _check_best_practices no_address "DKIM" [plain] = ("OK", "")
  /\ _check_best_practices no_address "DKIM" [padded] = ("WARN", "Chiave DKIM <2048 bit")
  /\ _check_best_practices no_address "DKIM" [twice]
     = ("CRITICAL", "Chiave DKIM molto corta (<1024 bit?)").
Proof. vm_compute. repeat split; reflexivity. Qed.

(** * Further properties of the rules *)

Lemma max_severity_idempotent (severity level : string) :
  max_severity (max_severity severity level) level = max_severity severity level.
Proof.
  unfold max_severity.
  destruct (Z.ltb_spec (_severity_rank severity) (_severity_rank level)) as [H|H].
  - now rewrite Z.ltb_irrefl.
  - destruct (Z.ltb_spec (_severity_rank severity) (_severity_rank level)); [lia|reflexivity].
Qed.

(** X1. Promotion never lowers a severity: the result is one of the two
    levels, its rank is the larger of the two ranks, and on equal ranks the
    current severity stays. *)
Theorem promotion_keeps_the_higher (severity level : string) :
  (max_severity severity level = severity \/ max_severity severity level = level)
  /\ _severity_rank (max_severity severity level)
     = Z.max (_severity_rank severity) (_severity_rank level)
  /\ (_severity_rank severity <= _severity_rank (max_severity severity level))%Z
  /\ (if (_severity_rank level <=? _severity_rank severity)%Z
      then max_severity severity level = severity
      else max_severity severity level = level).
Proof.
  unfold max_severity.
  destruct (Z.ltb_spec (_severity_rank severity) (_severity_rank level)) as [H|H];
    destruct (Z.leb_spec (_severity_rank level) (_severity_rank severity)) as [H'|H'];
    try lia; repeat split; auto; lia.
Qed.

(** *** Loops that raise the severity *)

Section RaisingLoop.

Context {A : Type} (fires : A -> bool) (level : string) (msg : A -> string).

Lemma raising_loop (values : list A) (v : verdict) :
  fold_left (fun v x => when (fires x) (raise_to level (msg x)) v) values v
  = (if existsb fires values then max_severity (fst v) level else fst v,
     snd v ++ map msg (filter fires values)).
Proof.
  revert v. induction values as [|x t IH]; intros v; cbn [fold_left existsb filter].
  - rewrite app_nil_r. now destruct v.
  - rewrite IH. unfold when. destruct (fires x); cbn [orb raise_to fst snd map].
    + rewrite max_severity_idempotent, <- app_assoc.
      now destruct (existsb fires t).
    + reflexivity.
Qed.

End RaisingLoop.

Lemma consistent_set_to (level msg : string) (v : verdict) :
  is_finding_level level = true -> msg <> "" -> consistent v -> consistent (set_to level msg v).
Proof.
  intros Hl Hm Hv. right. cbn [set_to fst snd]. split; [exact Hl|]. split.
  - destruct (snd v); discriminate.
  - apply Forall_app. split; [|now repeat constructor].
    destruct Hv as [->|(_ & _ & H)]; [constructor | exact H].
Qed.

Lemma finding_level_max (severity level : string) :
  is_finding_level level = true ->
  severity = "OK" \/ is_finding_level severity = true ->
  is_finding_level (max_severity severity level) = true.
Proof.
  intros Hl [->|Hs].
  - unfold is_finding_level in Hl.
    apply orb_true_iff in Hl. destruct Hl as [Hl|Hl].
    + apply orb_true_iff in Hl.
      destruct Hl as [Hl|Hl]; apply String.eqb_eq in Hl; subst; reflexivity.
    + apply String.eqb_eq in Hl. subst. reflexivity.
  - unfold max_severity. now destruct (_ <? _)%Z.
Qed.

Lemma consistent_raise_to (level msg : string) (v : verdict) :
  is_finding_level level = true -> msg <> "" -> consistent v -> consistent (raise_to level msg v).
Proof.
  intros Hl Hm Hv. right. cbn [raise_to fst snd]. split; [|split].
  - apply finding_level_max; [exact Hl|].
    destruct Hv as [->|(H & _)]; [now left | now right].
  - destruct (snd v); discriminate.
  - apply Forall_app. split; [|now repeat constructor].
    destruct Hv as [->|(_ & _ & H)]; [constructor | exact H].
Qed.

Lemma consistent_when (b : bool) (f : verdict -> verdict) (v : verdict) :
  (consistent v -> consistent (f v)) -> consistent v -> consistent (when b f v).
Proof. unfold when. destruct b; auto. Qed.

Lemma consistent_fold {A : Type} (step : verdict -> A -> verdict) (values : list A)
    (v : verdict) :
  (forall v x, consistent v -> consistent (step v x)) ->
  consistent v -> consistent (fold_left step values v).
Proof.
  intros Hstep. revert v. induction values as [|x t IH]; intros v Hv; simpl; auto.
Qed.

Ltac rule_consistent :=
  repeat first
    [ assumption
    | apply consistent_when; intros
    | apply consistent_set_to; [reflexivity | discriminate | ]
    | apply consistent_raise_to; [reflexivity | discriminate | ] ].

Lemma consistent_check_spf values combined v :
  consistent v -> consistent (check_spf values combined v).
Proof.
  intros Hv. unfold check_spf.
  apply consistent_fold; [intros; rule_consistent|]. rule_consistent.
Qed.

Lemma consistent_check_dmarc values combined v :
  consistent v -> consistent (check_dmarc values combined v).
Proof. intros Hv. unfold check_dmarc. rule_consistent. Qed.

Lemma consistent_check_dkim values combined v :
  consistent v -> consistent (check_dkim values combined v).
Proof.
  intros Hv. unfold check_dkim. apply consistent_when; intros; [rule_consistent|].
  apply consistent_fold; [|rule_consistent].
  intros u x Hu. unfold dkim_key_step.
  repeat match goal with |- context [if ?b then _ else _] => destruct b end;
    rule_consistent.
Qed.

Lemma consistent_check_bimi values combined v :
  consistent v -> consistent (check_bimi values combined v).
Proof. intros Hv. unfold check_bimi. rule_consistent. Qed.

Lemma consistent_check_mx values v : consistent v -> consistent (check_mx values v).
Proof. intros Hv. unfold check_mx. destruct values; rule_consistent. Qed.

Lemma consistent_check_ns values v : consistent v -> consistent (check_ns values v).
Proof. intros Hv. unfold check_ns. rule_consistent. Qed.

Lemma consistent_check_addr ip_is_private values v :
  consistent v -> consistent (check_addr ip_is_private values v).
Proof.
  intros Hv. unfold check_addr. apply consistent_fold; [|exact Hv].
  intros u addr Hu. destruct (ip_is_private addr) as [[|]|]; rule_consistent.
Qed.

Lemma join_nonempty (sep : string) (items : list string) :
  items <> [] -> Forall (fun msg => msg <> "") items -> Str.join sep items <> "".
Proof.
  intros Hne Hall. destruct items as [|x t]; [congruence|].
  inversion Hall as [|? ? Hx _]; subst.
  unfold Str.join. destruct t as [|y t]; simpl; [exact Hx|].
  destruct x; [congruence | discriminate].
Qed.

Section RuleFacts.

Variable ip_is_private : string -> option bool.

Local Abbreviation check := (_check_best_practices ip_is_private).

(** The verdict behind the pair that [_check_best_practices] returns. *)
Lemma check_consistent (record_type : string) (values : list string) :
  exists v, consistent v
            /\ check record_type values = (fst v, Str.join "; " (snd v)).
Proof.
  unfold _check_best_practices.
  set (v0 := ("OK", @nil string) : verdict).
  assert (H0 : consistent v0) by now left.
  eexists. split; [|reflexivity].
  repeat match goal with |- context [if ?b then _ else _] => destruct b end;
    auto using consistent_check_spf, consistent_check_dmarc, consistent_check_dkim,
      consistent_check_bimi, consistent_check_mx, consistent_check_ns,
      consistent_check_addr.
Qed.

(** X2. Whatever the record type and the values, the severity that the rules
    return is [OK], [INFO], [WARN] or [CRITICAL], and it is [OK] exactly
    when the text of the findings is empty. *)
Theorem verdict_ok_iff_no_finding (record_type : string) (values : list string) :
  let result := _check_best_practices ip_is_private record_type values in
  (fst result = "OK" \/ fst result = "INFO" \/ fst result = "WARN"
   \/ fst result = "CRITICAL")
  /\ (fst result = "OK" <-> snd result = "").
Proof.
  cbv zeta.
  destruct (check_consistent record_type values) as (v & Hv & ->). cbn [fst snd].
  destruct Hv as [->|(Hl & Hne & Hall)].
  - split; [now left|]. split; reflexivity.
  - assert (Hcases : fst v = "INFO" \/ fst v = "WARN" \/ fst v = "CRITICAL").
    { unfold is_finding_level in Hl.
      apply orb_true_iff in Hl. destruct Hl as [Hl|Hl].
      - apply orb_true_iff in Hl.
        destruct Hl as [Hl|Hl]; apply String.eqb_eq in Hl; auto.
      - apply String.eqb_eq in Hl. auto. }
    split; [now right|]. split.
    + intros E. rewrite E in Hcases. destruct Hcases as [H|[H|H]]; discriminate.
    + intros E. now destruct (join_nonempty "; " (snd v) Hne Hall).
Qed.

End RuleFacts.

(** *** The severity of each record type in closed form *)

Lemma dkim_keys_severity (values : list string) (v : verdict) :
  fst (fold_left dkim_key_step values v)
  = if existsb short_key values then "CRITICAL"
    else if existsb medium_key values then max_severity (fst v) "WARN"
    else fst v.
Proof.
  revert v. induction values as [|x t IH]; intros v; cbn [fold_left existsb]; [reflexivity|].
  rewrite IH. unfold dkim_key_step, short_key at 2, medium_key at 2.
  destruct (Str.contains "p=" x); cbn [andb orb]; [|reflexivity].
  destruct (length (key_part x) <? 160)%nat; cbn [andb orb negb set_to fst].
  - destruct (existsb short_key t); [reflexivity|]. now destruct (existsb medium_key t).
  - destruct (length (key_part x) <? 300)%nat; cbn [orb raise_to fst]; [|reflexivity].
    rewrite max_severity_idempotent.
    destruct (existsb short_key t); [reflexivity|]. now destruct (existsb medium_key t).
Qed.

Section SeverityTables.

Variable ip_is_private : string -> option bool.

Local Abbreviation check := (_check_best_practices ip_is_private).

(** X3. SPF: the severity is [CRITICAL] when the lower-cased text has a
    wildcard include; otherwise [WARN] when it has more than ten includes,
    or an ["all"] without one of the three qualified forms, or when a value
    is longer than 255 characters; otherwise [OK]. *)
Theorem spf_severity (values : list string) :
  let combined := Str.lower (Str.join " | " values) in
  fst (check "SPF" values)
  = if Str.contains "include:*" combined then "CRITICAL"
    else if (10 <? Str.count "include:" combined)%nat
            || (Str.contains "all" combined
                && negb (existsb (fun s => Str.contains s combined) ["-all"; "~all"; "?all"]))
            || existsb (fun val => (255 <? length val)%nat) values
         then "WARN"
         else "OK".
Proof.
  intros combined. unfold _check_best_practices, check_spf.
  cbn [String.eqb Ascii.eqb Bool.eqb fst]. fold combined.
  rewrite (raising_loop (fun val => (255 <? length val)%nat) "WARN"
             (fun _ => "Record SPF molto lungo (>255 caratteri)")).
  cbn [fst]. unfold when.
  destruct (Str.contains "include:*" combined);
    destruct (10 <? Str.count "include:" combined)%nat;
    destruct (Str.contains "all" combined && _);
    destruct (existsb _ values); reflexivity.
Qed.

(** X4. DMARC: the severity is [CRITICAL] when the lower-cased text lacks
    the version token or there is more than one value; otherwise [WARN]
    with the policy [none]; otherwise [INFO] without a report address;
    otherwise [OK]. *)
Theorem dmarc_severity (values : list string) :
  let combined := Str.lower (Str.join " | " values) in
  fst (check "DMARC" values)
  = if negb (Str.contains "v=dmarc1" combined) || (1 <? List.length values)%nat
    then "CRITICAL"
    else if Str.contains "p=none" combined then "WARN"
    else if negb (existsb (fun k => Str.contains k combined) ["rua="; "ruf="]) then "INFO"
    else "OK".
Proof.
  intros combined. unfold _check_best_practices, check_dmarc.
  cbn [String.eqb Ascii.eqb Bool.eqb fst]. fold combined. unfold when.
  destruct (Str.contains "v=dmarc1" combined);
    destruct (1 <? List.length values)%nat;
    destruct (Str.contains "p=none" combined);
    destruct (existsb _ _); reflexivity.
Qed.

(** X5. DKIM: the severity is [CRITICAL] when the lower-cased text has no
    ["p="] or a value has a key shorter than 160 characters; otherwise
    [WARN] when the text has no ["k=rsa"], or a value has a key shorter
    than 300 characters, or there is more than one value; otherwise
    [OK]. *)
Theorem dkim_severity (values : list string) :
  let combined := Str.lower (Str.join " | " values) in
  fst (check "DKIM" values)
  = if negb (Str.contains "p=" combined) || existsb short_key values then "CRITICAL"
    else if negb (Str.contains "k=rsa" combined) || existsb medium_key values
            || (1 <? List.length values)%nat
         then "WARN"
         else "OK".
Proof.
  intros combined. unfold _check_best_practices, check_dkim.
  cbn [String.eqb Ascii.eqb Bool.eqb fst]. fold combined. unfold when.
  destruct (Str.contains "p=" combined);
    destruct (Str.contains "k=rsa" combined);
    destruct (1 <? List.length values)%nat;
    cbn [negb orb raise_to set_to fst snd]; rewrite dkim_keys_severity;
    destruct (existsb short_key values);
    destruct (existsb medium_key values); reflexivity.
Qed.

(** X6. BIMI: the severity is [CRITICAL] when the lower-cased text lacks the
    version token; otherwise [WARN] when it lacks ["l="] or ["a="] or there
    is more than one value; otherwise [OK]. *)
Theorem bimi_severity (values : list string) :
  let combined := Str.lower (Str.join " | " values) in
  fst (check "BIMI" values)
  = if negb (Str.contains "v=bimi1" combined) then "CRITICAL"
    else if negb (Str.contains "l=" combined) || negb (Str.contains "a=" combined)
            || (1 <? List.length values)%nat
         then "WARN"
         else "OK".
Proof.
  intros combined. unfold _check_best_practices, check_bimi.
  cbn [String.eqb Ascii.eqb Bool.eqb fst]. fold combined. unfold when.
  destruct (Str.contains "v=bimi1" combined);
    destruct (Str.contains "l=" combined);
    destruct (Str.contains "a=" combined);
    destruct (1 <? List.length values)%nat; reflexivity.
Qed.

(** X7. A and AAAA: there is one finding per value that is a private
    address, in the order of the values; values that are public or that are
    no address are passed over.  The severity is [WARN] when there is such
    a value and [OK] otherwise. *)
Theorem address_verdict (values : list string) :
  let private := fun addr => match ip_is_private addr with
                             | Some true => true
                             | _ => false
                             end in
  let finding := fun addr => ("Indirizzo " ++ addr ++ " privato")%string in
  check "A" values
    = (if existsb private values then "WARN" else "OK",
       Str.join "; " (map finding (filter private values)))
  /\ check "AAAA" values = check "A" values.
Proof.
  intros private finding. split; [|reflexivity].
  unfold _check_best_practices, check_addr.
  cbn [String.eqb Ascii.eqb Bool.eqb orb].
  rewrite (fold_left_ext _ (fun v x => when (private x) (raise_to "WARN" (finding x)) v)).
  - rewrite raising_loop. cbn [fst snd app]. now destruct (existsb private values).
  - intros v addr. unfold when, private. now destruct (ip_is_private addr) as [[|]|].
Qed.

End SeverityTables.

(** * The filters and the rules together *)

Open Scope string_scope.

Lemma prefix_split (needle hay : string) :
  prefix needle hay = true <-> exists post, hay = needle ++ post.
Proof.
  revert hay. induction needle as [|a n IH]; intros hay.
  - split; [intros _; now exists hay | intros _; now destruct hay].
  - destruct hay as [|c t].
    + split; [discriminate | intros [post H]; discriminate].
    + cbn [prefix]. destruct (ascii_dec a c) as [->|Hne].
      * rewrite IH. split; intros [post H]; exists post.
        -- now rewrite H.
        -- simpl in H. now injection H.
      * split; [discriminate | intros [post H]; simpl in H; congruence].
Qed.

Lemma contains_split (needle hay : string) :
  Str.contains needle hay = true <-> exists pre post, hay = pre ++ needle ++ post.
Proof.
  induction hay as [|c t IH].
  - cbn [Str.contains]. rewrite orb_false_r, prefix_split. split.
    + intros [post H]. now exists "", post.
    + intros (pre & post & H). destruct pre; [now exists post|discriminate].
  - cbn [Str.contains]. rewrite orb_true_iff, prefix_split, IH. split.
    + intros [[post H]|(pre & post & H)].
      * now exists "", post.
      * exists (String c pre), post. now rewrite H.
    + intros (pre & post & H). destruct pre as [|c' pre].
      * left. now exists post.
      * right. exists pre, post. simpl in H. now injection H.
Qed.

Lemma lower_app (a b : string) : Str.lower (a ++ b) = Str.lower a ++ Str.lower b.
Proof. induction a as [|c t IH]; simpl; [reflexivity|]. now rewrite IH. Qed.

Lemma app_assoc_string (a b c : string) : (a ++ b) ++ c = a ++ b ++ c.
Proof. induction a as [|x t IH]; simpl; [reflexivity|]. now rewrite IH. Qed.

Lemma join_split (sep x : string) (items : list string) :
  In x items -> exists pre post, Str.join sep items = pre ++ x ++ post.
Proof.
  unfold Str.join. induction items as [|y t IH]; intros Hin; [contradiction|].
  destruct t as [|z t].
  - destruct Hin as [->|[]]. exists "", "". simpl.
    clear. induction x as [|c x IH]; simpl; [reflexivity|]. now rewrite <- IH.
  - destruct Hin as [->|Hin].
    + exists "", (sep ++ concat sep (z :: t)). reflexivity.
    + destruct (IH Hin) as (pre & post & E).
      exists (y ++ sep ++ pre), post.
      change (concat sep (y :: z :: t)) with (y ++ sep ++ concat sep (z :: t)).
      now rewrite E, !app_assoc_string.
Qed.

(** A token found in one record, lower-cased, is found in the lower-cased
    text of all the records. *)
Lemma token_in_combined (token sep x : string) (items : list string) :
  In x items ->
  Str.contains token (Str.lower x) = true ->
  Str.contains token (Str.lower (Str.join sep items)) = true.
Proof.
  intros Hin Hx. apply contains_split in Hx. destruct Hx as (p & q & Ex).
  destruct (join_split sep x items Hin) as (pre & post & E).
  apply contains_split. rewrite E, !lower_app, Ex.
  exists (Str.lower pre ++ p), (q ++ Str.lower post).
  now rewrite !app_assoc_string.
Qed.

Lemma dmarc_valid_lower (rec : string) :
  dmarc_valid rec = true -> Str.contains "v=dmarc1" (Str.lower rec) = true.
Proof.
  unfold dmarc_valid. intros H. apply contains_split in H. destruct H as (p & q & ->).
  apply contains_split. exists (Str.lower p), (Str.lower q). now rewrite !lower_app.
Qed.

Open Scope list_scope.

Section FilterThenRules.

Variable ip_is_private : string -> option bool.

Local Abbreviation check := (_check_best_practices ip_is_private).

(** X8. After the DMARC filter the rule on the missing version token cannot
    fire: when a record passes the filter, the lower-cased text of the kept
    records has the token, and the evaluation of the kept records is
    [CRITICAL] exactly when more than one record was kept. *)
Theorem dmarc_filter_shadows_version_rule (answers : list string) :
  let records := filter_records "DMARC" answers in
  records <> [] ->
  Str.contains "v=dmarc1" (Str.lower (Str.join " | " records)) = true
  /\ (fst (check "DMARC" records) = "CRITICAL" <-> 1 < List.length records).
Proof.
  intros records Hne.
  assert (Htok : Str.contains "v=dmarc1" (Str.lower (Str.join " | " records)) = true).
  { destruct records as [|x t] eqn:E; [congruence|].
    assert (Hx : In x (filter dmarc_valid answers)).
    { change (filter dmarc_valid answers) with records. subst records. rewrite E. now left. }
    apply filter_In in Hx. destruct Hx as [_ Hx].
    apply (token_in_combined _ _ x); [now left | now apply dmarc_valid_lower]. }
  split; [exact Htok|].
  rewrite dmarc_severity. cbv zeta. rewrite Htok. cbn [negb orb].
  destruct (Nat.ltb_spec 1 (List.length records)) as [H|H].
  - split; auto.
  - split; [|lia].
    repeat match goal with |- context [if ?b then _ else _] => destruct b end;
      discriminate.
Qed.

(** X9. After the BIMI filter the rule on the missing version token cannot
    fire either: when a record passes the filter, the evaluation of the kept
    records is [OK] or [WARN], never [CRITICAL]. *)
Theorem bimi_filter_shadows_version_rule (answers : list string) :
  let records := filter_records "BIMI" answers in
  records <> [] ->
  Str.contains "v=bimi1" (Str.lower (Str.join " | " records)) = true
  /\ (fst (check "BIMI" records) = "OK" \/ fst (check "BIMI" records) = "WARN").
Proof.
  intros records Hne.
  assert (Htok : Str.contains "v=bimi1" (Str.lower (Str.join " | " records)) = true).
  { destruct records as [|x t] eqn:E; [congruence|].
    assert (Hx : In x (filter bimi_valid answers)).
    { change (filter bimi_valid answers) with records. subst records. rewrite E. now left. }
    apply filter_In in Hx. destruct Hx as [_ Hx]. rewrite bimi_valid_lower in Hx.
    apply (token_in_combined _ _ x); [now left | exact Hx]. }
  split; [exact Htok|].
  rewrite bimi_severity. cbv zeta. rewrite Htok. cbn [negb].
  destruct (_ || _); auto.
Qed.

End FilterThenRules.

(** * Further properties of the rows of a run *)

Lemma expected_keys_cases analyzer domain rtype (k : string * string * string) :
  In k (expected_keys analyzer domain rtype) ->
  k = (domain, rtype, "")
  \/ (rtype = "DKIM" /\ exists selector,
        In selector (dkim_selectors analyzer) /\ k = (domain, "DKIM", selector)).
Proof.
  unfold expected_keys. destruct (String.eqb_spec rtype "DKIM") as [->|_].
  - destruct (dkim_selectors analyzer) as [|sel sels] eqn:E.
    + intros [<-|[]]. now left.
    + rewrite <- E. intros H. apply in_map_iff in H. destruct H as (x & <- & Hx).
      right. split; [reflexivity|]. now exists x.
  - intros [<-|[]]. now left.
Qed.

Section RowFacts.

Variable ip_is_private : string -> option bool.
Variable resolver_state : Type.
Variable resolve : resolver_state -> string -> string -> resolver_state * resolution.
Variable argsort : list Z -> list nat.

Local Abbreviation check := (_check_best_practices ip_is_private).
Local Abbreviation collected := (collect ip_is_private resolver_state resolve).
Local Abbreviation ran := (run ip_is_private resolver_state resolve argsort).

(** Every row that [run] returns was left by an entry of the plan. *)
Lemma run_row_made analyzer selected (s : resolver_state) (r : row) :
  In r (snd (ran analyzer selected s)) ->
  In r (snd (collected analyzer selected s))
  /\ exists d, In d (plan analyzer (record_types_of analyzer selected))
               /\ made ip_is_private analyzer r d.
Proof.
  intros Hin. rewrite run_rows in Hin. apply take_In in Hin. split; [exact Hin|].
  destruct (collect_rows ip_is_private resolver_state resolve analyzer selected s)
    as (rows & E & Hall).
  rewrite E in Hin. exact (Forall2_In_left _ _ _ _ Hall Hin).
Qed.

Lemma check_cases (record_type : string) (values : list string) :
  check record_type values = ("OK", "")
  \/ (is_finding_level (fst (check record_type values)) = true
      /\ snd (check record_type values) <> "").
Proof.
  destruct (check_consistent ip_is_private record_type values) as (v & Hv & ->).
  destruct Hv as [->|(Hl & Hne & Hall)]; [now left|].
  right. cbn [fst snd]. split; [exact Hl | now apply join_nonempty].
Qed.

Lemma finding_level_cases (level : string) :
  is_finding_level level = true -> level = "INFO" \/ level = "WARN" \/ level = "CRITICAL".
Proof.
  unfold is_finding_level. intros Hl.
  apply orb_true_iff in Hl. destruct Hl as [Hl|Hl].
  - apply orb_true_iff in Hl. destruct Hl as [Hl|Hl]; apply String.eqb_eq in Hl; auto.
  - apply String.eqb_eq in Hl. auto.
Qed.

(** X10. In best-practice mode every row that [run] returns has one of the
    severities [OK], [INFO], [WARN] and [CRITICAL], never none, and its
    issues are empty exactly when its severity is [OK]. *)
Theorem rows_in_best_practice_mode analyzer selected (s : resolver_state) (r : row) :
  enable_best_practices analyzer = true ->
  In r (snd (ran analyzer selected s)) ->
  (Severity r = "OK" \/ Severity r = "INFO" \/ Severity r = "WARN" \/ Severity r = "CRITICAL")
  /\ (Issues r = "" <-> Severity r = "OK").
Proof.
  intros Hbp Hin. destruct (run_row_made _ _ _ _ Hin) as (_ & d & _ & Hmade).
  destruct d as [domain|domain query_domain rtype logical_type selector]; simpl in Hmade.
  - subst r. cbn. split; [auto|]. split; discriminate.
  - destruct Hmade as [[answers ->]|[message ->]].
    + unfold answer_row. rewrite Hbp.
      destruct (check_cases logical_type (filter_records logical_type answers))
        as [E|(Hl & Hne)].
      * rewrite E. destruct (needs_valid_record logical_type && is_nil _);
          cbn [Severity Issues]; (split; [auto|]); split; try discriminate; reflexivity.
      * destruct (check logical_type (filter_records logical_type answers))
          as [sev details]. cbn [fst snd] in *.
        destruct (needs_valid_record logical_type && is_nil _); cbn [Severity Issues].
        -- split; [auto|]. split; discriminate.
        -- apply finding_level_cases in Hl.
           split; [tauto|].
           destruct Hl as [-> | [-> | ->]]; cbn; split; intros; congruence.
    + unfold failure_row. rewrite Hbp. cbn. split; [auto|]. split; discriminate.
Qed.

(** X11. Outside best-practice mode a row that [run] returns has no
    severity, and then issues only if it reports a failed lookup; the one
    exception is the marker of a DKIM request without selectors, which is
    [CRITICAL] in either mode. *)
Theorem rows_outside_best_practice_mode analyzer selected (s : resolver_state) (r : row) :
  enable_best_practices analyzer = false ->
  In r (snd (ran analyzer selected s)) ->
  (Severity r = "" /\ (Issues r = "" \/ Issues r = "Errore di lookup"))
  \/ (dkim_selectors analyzer = []
      /\ r = mk_row (Domain r) "DKIM" "" "Nessun selettore DKIM fornito"
               "Nessun selettore DKIM fornito" "CRITICAL").
Proof.
  intros Hbp Hin. destruct (run_row_made _ _ _ _ Hin) as (_ & d & Hd & Hmade).
  destruct d as [domain|domain query_domain rtype logical_type selector]; simpl in Hmade.
  - right. subst r. split; [|reflexivity].
    unfold plan in Hd. apply in_flat_map in Hd. destruct Hd as (dom & _ & Hd).
    apply in_flat_map in Hd. destruct Hd as (rtype & _ & Hd).
    unfold dispatch_rtype in Hd.
    destruct (rtype =? "DKIM").
    + destruct (dkim_selectors analyzer) as [|sel sels] eqn:E; [reflexivity|].
      rewrite <- E in Hd. apply in_map_iff in Hd. destruct Hd as (x & Hx & _). discriminate.
    + repeat match type of Hd with context [if ?b then _ else _] => destruct b end;
        destruct Hd as [Hd|[]]; discriminate.
  - left. destruct Hmade as [[answers ->]|[message ->]].
    + unfold answer_row. rewrite Hbp.
      destruct (needs_valid_record logical_type && is_nil _); cbn; auto.
    + unfold failure_row. rewrite Hbp. cbn. auto.
Qed.

(** X12. A row that [run] returns names a domain of the analyzer and a
    requested record type; its selector is empty unless the row is a DKIM
    row, and then the selector is one of the analyzer's. *)
Theorem rows_name_what_was_asked analyzer selected (s : resolver_state) (r : row) :
  In r (snd (ran analyzer selected s)) ->
  In (Domain r) (domains analyzer)
  /\ In (RecordType r) (record_types_of analyzer selected)
  /\ (Selector r = ""
      \/ (RecordType r = "DKIM" /\ In (Selector r) (dkim_selectors analyzer))).
Proof.
  intros Hin. destruct (run_row_made _ _ _ _ Hin) as (Hout & _).
  assert (Hk : In (row_key r) (map row_key (snd (collected analyzer selected s))))
    by now apply in_map.
  rewrite (collect_keys ip_is_private resolver_state resolve) in Hk.
  apply in_flat_map in Hk. destruct Hk as (domain & Hdom & Hk).
  apply in_flat_map in Hk. destruct Hk as (rtype & Hrt & Hk).
  apply expected_keys_cases in Hk. unfold row_key in Hk.
  destruct Hk as [Hk|(Ert & sel & Hsel & Hk)]; injection Hk as E1 E2 E3;
    rewrite E1, E2, E3.
  - auto.
  - subst rtype. split; [exact Hdom|]. split; [exact Hrt|]. right. auto.
Qed.

(** X13. Without selectors a DKIM request costs no lookup: the loops leave
    the resolver as it was and one [CRITICAL] marker row per domain, in
    either mode. *)
Theorem dkim_without_selectors analyzer (s : resolver_state) :
  dkim_selectors analyzer = [] ->
  collect ip_is_private resolver_state resolve analyzer (Some ["DKIM"]) s
  = (s, map (fun domain => mk_row domain "DKIM" "" "Nessun selettore DKIM fornito"
                             "Nessun selettore DKIM fornito" "CRITICAL")
            (domains analyzer)).
Proof.
  intros Hsel. unfold collect.
  assert (Hrt : record_types_of analyzer (Some ["DKIM"]) = ["DKIM"]).
  { unfold record_types_of. cbn. now rewrite andb_false_r. }
  rewrite Hrt.
  assert (G : forall ds out,
             fold_left (run_domain ip_is_private resolver_state resolve analyzer ["DKIM"])
                       ds (s, out)
             = (s, out ++ map (fun domain => _err domain "DKIM" "Nessun selettore DKIM fornito")
                              ds)).
  { induction ds as [|d ds IH]; intros out; cbn [fold_left map].
    - now rewrite app_nil_r.
    - unfold run_domain at 2. cbn [fold_left]. unfold run_rtype.
      cbn [String.eqb Ascii.eqb Bool.eqb]. rewrite Hsel. cbn [fst snd].
      rewrite IH, <- app_assoc. reflexivity. }
  rewrite G. reflexivity.
Qed.

End RowFacts.

(** * The window and the command line *)

Lemma mem_In (x : string) (items : list string) : mem x items = true <-> In x items.
Proof.
  unfold mem. rewrite existsb_exists. split.
  - intros (y & Hy & E). apply String.eqb_eq in E. now subst.
  - intros H. exists x. split; [exact H | apply String.eqb_refl].
Qed.

Lemma tidy_append (x : string) (items : list string) :
  x <> "" -> mem x items = false -> tidy items -> tidy (items ++ [x]).
Proof.
  intros Hx Hm [Hnd Hne].
  assert (Hnin : ~ In x items).
  { intros H. apply mem_In in H. congruence. }
  split.
  - apply NoDup_app; [exact Hnd | repeat constructor; intros [] | ].
    intros y Hy [<-|[]]. contradiction.
  - intros H. apply in_app_or in H. destruct H as [H|[H|[]]]; [contradiction | congruence].
Qed.

Section WindowLists.

Variable strip : string -> string.

Lemma import_domain_line_kept (w : Gui.window) (line : string) :
  tidy (Gui.domains w) -> Gui.domain_list w = Gui.domains w ->
  domains_kept w (Gui.import_domain_line strip w line).
Proof.
  intros Ht Hl. unfold Gui.import_domain_line.
  destruct (String.eqb_spec (strip line) "") as [E|E]; cbn [negb andb].
  - repeat split; try apply Ht; auto using incl_refl.
  - destruct (mem (strip line) (Gui.domains w)) eqn:Hm; cbn [negb].
    + repeat split; try apply Ht; auto using incl_refl.
    + unfold domains_kept. cbn. split; [now apply tidy_append|].
      split; [now rewrite Hl|]. split; [now apply incl_appl, incl_refl | reflexivity].
Qed.

Lemma import_domains_kept (lines : list string) (w : Gui.window) :
  tidy (Gui.domains w) -> Gui.domain_list w = Gui.domains w ->
  domains_kept w (fold_left (Gui.import_domain_line strip) lines w).
Proof.
  revert w. induction lines as [|line t IH]; intros w Ht Hl; cbn [fold_left].
  - repeat split; try apply Ht; auto using incl_refl.
  - destruct (import_domain_line_kept w line Ht Hl) as (Ht1 & Hl1 & Hi1 & Hs1).
    destruct (IH _ Ht1 Hl1) as (Ht2 & Hl2 & Hi2 & Hs2).
    split; [exact Ht2|]. split; [exact Hl2|].
    split; [eapply incl_tran; eassumption | congruence].
Qed.

Lemma import_dkim_line_kept (w : Gui.window) (line : string) :
  tidy (Gui.dkim_selectors w) -> Gui.dkim_list w = Gui.dkim_selectors w ->
  selectors_kept w (Gui.import_dkim_line strip w line).
Proof.
  intros Ht Hl. unfold Gui.import_dkim_line.
  destruct (String.eqb_spec (strip line) "") as [E|E]; cbn [negb andb].
  - repeat split; try apply Ht; auto using incl_refl.
  - destruct (mem (strip line) (Gui.dkim_selectors w)) eqn:Hm; cbn [negb].
    + repeat split; try apply Ht; auto using incl_refl.
    + unfold selectors_kept. cbn. split; [now apply tidy_append|].
      split; [now rewrite Hl|]. split; [now apply incl_appl, incl_refl | reflexivity].
Qed.

Lemma import_dkim_kept (lines : list string) (w : Gui.window) :
  tidy (Gui.dkim_selectors w) -> Gui.dkim_list w = Gui.dkim_selectors w ->
  selectors_kept w (fold_left (Gui.import_dkim_line strip) lines w).
Proof.
  revert w. induction lines as [|line t IH]; intros w Ht Hl; cbn [fold_left].
  - repeat split; try apply Ht; auto using incl_refl.
  - destruct (import_dkim_line_kept w line Ht Hl) as (Ht1 & Hl1 & Hi1 & Hs1).
    destruct (IH _ Ht1 Hl1) as (Ht2 & Hl2 & Hi2 & Hs2).
    split; [exact Ht2|]. split; [exact Hl2|].
    split; [eapply incl_tran; eassumption | congruence].
Qed.

(** X14. Whatever [strip] removes, adding a domain by hand or importing a
    file keeps the list of
    domains free of repetitions and of empty names, keeps the tree view
    equal to the list, drops no domain and leaves the selectors alone.  A
    domain added by hand without the warning is the entry without the white
    space around it, and it is the last of the list. *)
Theorem domains_stay_tidy (w : Gui.window) (file : option (list string)) :
  tidy (Gui.domains w) ->
  Gui.domain_list w = Gui.domains w ->
  domains_kept w (fst (Gui._add_domain strip w))
  /\ domains_kept w (Gui._import_domains strip file w)
  /\ (if snd (Gui._add_domain strip w)
      then fst (Gui._add_domain strip w) = w
      else Gui.domains (fst (Gui._add_domain strip w))
           = Gui.domains w ++ [strip (Gui.domain_entry w)]).
Proof.
  intros Ht Hl. split; [|split].
  - pose proof (import_domain_line_kept w (Gui.domain_entry w) Ht Hl) as H.
    unfold Gui.import_domain_line in H. unfold Gui._add_domain.
    destruct (strip (Gui.domain_entry w) =? ""); cbn [negb andb orb fst] in *;
      [exact H|].
    destruct (mem _ _); cbn [negb fst] in *; exact H.
  - destruct file as [lines|]; cbn [Gui._import_domains].
    + now apply import_domains_kept.
    + repeat split; try apply Ht; auto using incl_refl.
  - unfold Gui._add_domain. now destruct (_ || _).
Qed.

(** X15. The same holds of the DKIM selectors: adding one by hand or
    importing a file keeps the list free of repetitions and of empty
    selectors and equal to its tree view, drops none and leaves the domains
    alone. *)
Theorem selectors_stay_tidy (w : Gui.window) (file : option (list string)) :
  tidy (Gui.dkim_selectors w) ->
  Gui.dkim_list w = Gui.dkim_selectors w ->
  selectors_kept w (fst (Gui._add_dkim strip w))
  /\ selectors_kept w (Gui._import_dkim strip file w)
  /\ (if snd (Gui._add_dkim strip w)
      then fst (Gui._add_dkim strip w) = w
      else Gui.dkim_selectors (fst (Gui._add_dkim strip w))
           = Gui.dkim_selectors w ++ [strip (Gui.dkim_entry w)]).
Proof.
  intros Ht Hl. split; [|split].
  - pose proof (import_dkim_line_kept w (Gui.dkim_entry w) Ht Hl) as H.
    unfold Gui.import_dkim_line in H. unfold Gui._add_dkim.
    destruct (strip (Gui.dkim_entry w) =? ""); cbn [negb andb orb fst] in *;
      [exact H|].
    destruct (mem _ _); cbn [negb fst] in *; exact H.
  - destruct file as [lines|]; cbn [Gui._import_dkim].
    + now apply import_dkim_kept.
    + repeat split; try apply Ht; auto using incl_refl.
  - unfold Gui._add_dkim. now destruct (_ || _).
Qed.

End WindowLists.

Lemma selection_default (w : Gui.window) : incl (Gui.selection w) DEFAULT_RECORD_TYPES.
Proof.
  unfold Gui.selection. destruct (_ && _).
  - intros x Hx. cbn in Hx. cbn. tauto.
  - unfold Gui.checked. intros x Hx. apply filter_In in Hx. apply Hx.
Qed.

Section FrontEnds.

Variable ip_is_private : string -> option bool.
Variable resolver_state : Type.
Variable resolve : resolver_state -> string -> string -> resolver_state * resolution.
Variable argsort : list Z -> list nat.
Variable resolver : creation.

Local Abbreviation ran := (run ip_is_private resolver_state resolve argsort).

(** X16. What the analysis started from the window does, case by case.
    With no domain it writes the message for that, makes no lookup and keeps
    the earlier results; so it does, with its own message, when there are
    domains but the selection is empty, which is when no record type is
    checked outside best-practice mode.  Otherwise it never raises the
    configuration error: when the resolver can be created it stores the
    rows that [run] returns for the domains, the selectors and the flag of
    the window and for the selection, and shows their text; it raises only
    what the creation of the resolver raises.  The selection is made of
    default record types, and when it is not empty [run] uses it as it
    is. *)
Theorem window_analysis_never_raises (w : Gui.window) (s : resolver_state) :
  let analyzer := mk_analyzer (Gui.domains w) (Gui.dkim_selectors w)
                    (Gui.enable_best_practices w) in
  let result := ran analyzer (Some (Gui.selection w)) s in
  Gui._run_analysis ip_is_private resolver_state resolve argsort resolver w s
  = (if is_nil (Gui.domains w)
     then Returned (s, Gui.display ("Nessun dominio da analizzare." ++ nl)
                         (Gui.analysis_results w) w)
     else if is_nil (Gui.selection w)
     then Returned (s, Gui.display ("Nessun tipo di record selezionato." ++ nl)
                         (Gui.analysis_results w) w)
     else match resolver with
          | Created =>
              Returned (fst result,
                        Gui.display (String.concat "" (map Gui.row_text (snd result)))
                          (Some (snd result)) w)
          | NotCreated msg => Raised msg
          end)
  /\ (is_nil (Gui.selection w)
      = is_nil (Gui.checked w) && negb (Gui.enable_best_practices w))
  /\ incl (Gui.selection w) DEFAULT_RECORD_TYPES
  /\ (if is_nil (Gui.selection w) then True
      else record_types_of analyzer (Some (Gui.selection w)) = Gui.selection w).
Proof.
  intros analyzer result. split; [|split; [|split]].
  - unfold Gui._run_analysis.
    destruct (Gui.domains w) as [|d ds] eqn:Ed; [reflexivity|]. cbn [is_nil].
    destruct (is_nil (Gui.selection w)) eqn:Es; [reflexivity|].
    cbn [__init__]. destruct resolver as [|msg]; [|reflexivity].
    subst result analyzer.
    now destruct (run _ _ _ _ _ _ _).
  - unfold Gui.selection.
    destruct (Gui.enable_best_practices w); destruct (is_nil (Gui.checked w)) eqn:E;
      cbn [andb negb is_nil]; rewrite ?E; reflexivity.
  - apply selection_default.
  - destruct (Gui.selection w) as [|t ts] eqn:Es; cbn [is_nil]; [exact I|].
    unfold record_types_of. cbn. now rewrite andb_false_r.
Qed.


End FrontEnds.

(** * What is asked of the resolver *)

Lemma flat_map_nested {A B C : Type} (f : B -> list C) (g : A -> list B) (l : list A) :
  flat_map f (flat_map g l) = flat_map (fun x => flat_map f (g x)) l.
Proof.
  induction l as [|x t IH]; [reflexivity|].
  cbn [flat_map]. now rewrite flat_map_app, IH.
Qed.

Section Lookups.

Variable ip_is_private : string -> option bool.
Variable table : string -> string -> resolution.

Lemma perform_log analyzer (entries : list dispatch) (log : list (string * string))
    (out : list row) :
  fst (fold_left (perform ip_is_private _ (logging table) analyzer) entries (log, out))
  = log ++ flat_map asked entries.
Proof.
  revert log out. induction entries as [|d t IH]; intros log out; cbn [fold_left flat_map].
  - now rewrite app_nil_r.
  - destruct d as [domain|domain query_domain rtype logical_type selector].
    + cbn [perform fst snd asked app]. apply IH.
    + cbn [perform asked]. unfold _query_and_collect.
      change (logging table log query_domain rtype)
        with (log ++ [(query_domain, rtype)], table query_domain rtype).
      cbv beta iota.
      destruct (table query_domain rtype); rewrite IH, <- app_assoc; reflexivity.
Qed.

(** X18. [run] asks the resolver for the lookups of the dispatch plan, each
    once and in the order of the plan, whether the lookups succeed or fail:
    per domain and requested type, the domain itself as TXT for SPF, the
    names under [_dmarc.] and [default._bimi.] as TXT for DMARC and BIMI,
    one name under [._domainkey.] as TXT per selector for DKIM (none without
    selectors), and the domain itself with the requested type otherwise. *)
Theorem lookups_follow_the_plan analyzer selected (argsort : list Z -> list nat) :
  fst (run ip_is_private _ (logging table) argsort analyzer selected [])
  = flat_map (fun domain =>
      flat_map (fun rtype =>
        if rtype =? "DKIM"
        then map (fun selector => ((selector ++ "._domainkey." ++ domain)%string, "TXT"))
                 (dkim_selectors analyzer)
        else if rtype =? "DMARC" then [(("_dmarc." ++ domain)%string, "TXT")]
        else if rtype =? "SPF" then [(domain, "TXT")]
        else if rtype =? "BIMI" then [(("default._bimi." ++ domain)%string, "TXT")]
        else [(domain, rtype)])
        (record_types_of analyzer selected))
      (domains analyzer).
Proof.
  assert (E : fst (run ip_is_private _ (logging table) argsort analyzer selected [])
              = fst (collect ip_is_private _ (logging table) analyzer selected [])).
  { unfold run. destruct (collect _ _ _ _ _ _) as [s' out]. now destruct out. }
  rewrite E, collect_plan, perform_log. cbn [app]. unfold plan.
  rewrite flat_map_nested. apply flat_map_ext. intros domain.
  rewrite flat_map_nested. apply flat_map_ext. intros rtype.
  unfold dispatch_rtype. destruct (rtype =? "DKIM").
  - destruct (dkim_selectors analyzer) as [|sel sels] eqn:Es; [reflexivity|].
    rewrite <- Es. clear Es.
    induction (dkim_selectors analyzer) as [|x l IH]; [reflexivity|].
    cbn [map flat_map asked app]. now rewrite IH.
  - repeat match goal with |- context [if ?b then _ else _] => destruct b end;
      reflexivity.
Qed.

End Lookups.

(** * Mail exchangers *)

Lemma distinct_one (p : Z) (l : list Z) :
  (distinct (p :: l) =? 1)%nat = forallb (Z.eqb p) l.
Proof.
  destruct (forallb (Z.eqb p) l) eqn:E.
  - apply Nat.eqb_eq. unfold distinct.
    rewrite (nodup_all_equal p); [reflexivity | discriminate |].
    intros q [<-|Hq]; [reflexivity|].
    rewrite forallb_forall in E. symmetry. now apply Z.eqb_eq, E.
  - apply Nat.eqb_neq. intros H.
    assert (Hex : exists x, In x l /\ x <> p).
    { clear H. induction l as [|y t IH]; [discriminate|].
      cbn [forallb] in E. apply andb_false_iff in E. destruct E as [E|E].
      - exists y. split; [now left|]. apply Z.eqb_neq in E. congruence.
      - destruct (IH E) as (x & Hx & Hne). exists x. split; [now right | exact Hne]. }
    destruct Hex as (x & Hx & Hne).
    assert (Hle : List.length [p; x] <= List.length (nodup Z.eq_dec (p :: l))).
    { apply NoDup_incl_length.
      - constructor; [intros [Hp|[]]; congruence | repeat constructor; intros []].
      - intros y [<-|[<-|[]]]; apply nodup_In; [now left | now right]. }
    unfold distinct in H. cbn [List.length] in Hle. lia.
Qed.

Section MailExchangers.

Variable ip_is_private : string -> option bool.

(** X19. MX: the severity is [CRITICAL] exactly when there is no value.
    With values it is [WARN] when at least two of them start with a number
    and all these numbers are equal, and [OK] otherwise; values that do not
    start with a number do not count. *)
Theorem mx_severity (values : list string) :
  fst (_check_best_practices ip_is_private "MX" values)
  = match values with
    | [] => "CRITICAL"
    | _ :: _ =>
        match mx_priorities values with
        | p :: q :: rest => if forallb (Z.eqb p) (q :: rest) then "WARN" else "OK"
        | _ => "OK"
        end
    end.
Proof.
  unfold _check_best_practices, check_mx. cbn [String.eqb Ascii.eqb Bool.eqb].
  destruct values as [|v0 vs]; [reflexivity|].
  destruct (mx_priorities (v0 :: vs)) as [|p [|q rest]]; [reflexivity | reflexivity |].
  rewrite distinct_one. cbn [List.length]. unfold when.
  now destruct (forallb (Z.eqb p) (q :: rest)).
Qed.

End MailExchangers.

(** * The further properties on sample inputs *)

Lemma dmarc_filter_shadows_version_rule_witness :
  Str.contains "v=dmarc1"
    (Str.lower (Str.join " | " (filter_records "DMARC" dmarc_answers))) = true
  /\ (fst (_check_best_practices no_address "DMARC" (filter_records "DMARC" dmarc_answers))
      = "CRITICAL"
      <-> 1 < List.length (filter_records "DMARC" dmarc_answers)).
Proof.
  apply (dmarc_filter_shadows_version_rule no_address dmarc_answers).
  vm_compute. discriminate.
Defined.

Lemma bimi_filter_shadows_version_rule_witness :
  Str.contains "v=bimi1"
    (Str.lower (Str.join " | " (filter_records "BIMI" bimi_answers))) = true
  /\ (fst (_check_best_practices no_address "BIMI" (filter_records "BIMI" bimi_answers)) = "OK"
      \/ fst (_check_best_practices no_address "BIMI" (filter_records "BIMI" bimi_answers))
         = "WARN").
Proof.
  apply (bimi_filter_shadows_version_rule no_address bimi_answers).
  vm_compute. discriminate.
Defined.

Lemma rows_in_best_practice_mode_witness :
  let r := mk_row "a.com" "SPF" "" "v=spf1 -all" "" "OK" in
  (Severity r = "OK" \/ Severity r = "INFO" \/ Severity r = "WARN" \/ Severity r = "CRITICAL")
  /\ (Issues r = "" <-> Severity r = "OK").
Proof.
  apply (rows_in_best_practice_mode no_address nat flaky_resolver argsort_keeping_ties
           two_domains (Some ["SPF"; "DMARC"]) 0).
  - reflexivity.
  - vm_compute. tauto.
Defined.

Lemma rows_outside_best_practice_mode_witness :
  let r := mk_row "example.com" "A" "" "timeout" "Errore di lookup" "" in
  (Severity r = "" /\ (Issues r = "" \/ Issues r = "Errore di lookup"))
  \/ (dkim_selectors one_quiet_domain = []
      /\ r = mk_row (Domain r) "DKIM" "" "Nessun selettore DKIM fornito"
               "Nessun selettore DKIM fornito" "CRITICAL").
Proof.
  apply (rows_outside_best_practice_mode no_address unit (table_resolver unreachable)
           argsort_keeping_ties one_quiet_domain (Some ["A"]) tt).
  - reflexivity.
  - vm_compute. tauto.
Defined.

Lemma rows_name_what_was_asked_witness :
  let r := mk_row "b.com" "DKIM" "s1" "v=spf1 -all" "DKIM non valido (manca p=); Record DKIM senza k=rsa"
             "CRITICAL" in
  In (Domain r) (domains two_domains)
  /\ In (RecordType r) (record_types_of two_domains (Some ["MX"; "DKIM"]))
  /\ (Selector r = ""
      \/ (RecordType r = "DKIM" /\ In (Selector r) (dkim_selectors two_domains))).
Proof.
  apply (rows_name_what_was_asked no_address nat flaky_resolver argsort_keeping_ties
           two_domains (Some ["MX"; "DKIM"]) 0).
  vm_compute. tauto.
Defined.

Lemma dkim_without_selectors_witness :
  collect no_address unit (table_resolver unreachable) two_quiet_domains (Some ["DKIM"]) tt
  = (tt, map (fun domain => mk_row domain "DKIM" "" "Nessun selettore DKIM fornito"
                              "Nessun selettore DKIM fornito" "CRITICAL")
             (domains two_quiet_domains)).
Proof.
  apply (dkim_without_selectors no_address unit (table_resolver unreachable)
           two_quiet_domains tt).
  reflexivity.
Defined.

Lemma sample_window_tidy :
  tidy (Gui.domains sample_window) /\ tidy (Gui.dkim_selectors sample_window).
Proof.
  split; (split; [repeat constructor; intros []; discriminate
                 | intros [H|[]]; discriminate]).
Qed.

Lemma domains_stay_tidy_witness :
  domains_kept sample_window (fst (Gui._add_domain Str.strip sample_window))
  /\ domains_kept sample_window
       (Gui._import_domains Str.strip (Some ["c.com"; ""; "a.com"; " c.com"]) sample_window)
  /\ (if snd (Gui._add_domain Str.strip sample_window)
      then fst (Gui._add_domain Str.strip sample_window) = sample_window
      else Gui.domains (fst (Gui._add_domain Str.strip sample_window))
           = Gui.domains sample_window ++ [Str.strip (Gui.domain_entry sample_window)]).
Proof.
  apply (domains_stay_tidy Str.strip sample_window (Some ["c.com"; ""; "a.com"; " c.com"])).
  - apply sample_window_tidy.
  - reflexivity.
Defined.

Lemma selectors_stay_tidy_witness :
  selectors_kept sample_window (fst (Gui._add_dkim Str.strip sample_window))
  /\ selectors_kept sample_window (Gui._import_dkim Str.strip (Some ["s3"; "s1"]) sample_window)
  /\ (if snd (Gui._add_dkim Str.strip sample_window)
      then fst (Gui._add_dkim Str.strip sample_window) = sample_window
      else Gui.dkim_selectors (fst (Gui._add_dkim Str.strip sample_window))
           = Gui.dkim_selectors sample_window ++ [Str.strip (Gui.dkim_entry sample_window)]).
Proof.
  apply (selectors_stay_tidy Str.strip sample_window (Some ["s3"; "s1"])).
  - apply sample_window_tidy.
  - reflexivity.
Defined.
